(** * hue-exporter: the collector package

    A shallow embedding of [collector.Gatherer], its three collection jobs
    (lights, groups, sensors) and the gauge observers they register, together
    with the properties stated about them.

    The bridge client (huego), the meter and the logger are collaborators
    outside the package: what they answer is an input of the model, what the
    package does with the answers is modelled from the source. *)

From Stdlib Require Import List String Ascii ZArith Bool Lia Arith.
From Stdlib Require Import DecimalString.
From Stdlib Require DecimalPos DecimalZ.
Import ListNotations.

Local Open Scope string_scope.
Local Open Scope list_scope.
Local Open Scope Z_scope.

(** ** Errors

    Go [error] values the package creates, wraps or receives. *)
Inductive error : Type :=
| ErrInvalidLogger                     (* package variable, made by errors.New *)
| ErrInvalidExporter                   (* package variable, made by errors.New *)
| Canceled                             (* context.Canceled *)
| DeadlineExceeded                     (* context.DeadlineExceeded *)
| External (msg : string)              (* an error of the bridge client or of the meter *)
| Wrapped (context : string) (cause : error). (* fmt.Errorf with the verb %w *)

(** The text of [err.Error()]. *)
Fixpoint Error (e : error) : string :=
  match e with
  | ErrInvalidLogger => "the provided logger is not valid"
  | ErrInvalidExporter => "the provided *prometheus.Exporter is not valid"
  | Canceled => "context canceled"
  | DeadlineExceeded => "context deadline exceeded"
  | External msg => msg
  | Wrapped context cause => (context ++ ": " ++ Error cause)%string
  end.

(** ** Entities fetched from the bridge

    The fields of huego's [Light], [Group], [Sensor] and [NewLight] that the
    package reads.  Go's [int] and [uint8] are carried as [Z]. *)
Record State : Type := mkState { On : bool; Bri : Z }.

Record Light : Type := mkLight { Light_State : State; Light_ID : Z }.

Record Group : Type := mkGroup {
  Group_Name : string;
  Group_Lights : list string;
  Group_State : State;
  Group_ID : Z
}.

Record Sensor : Type := mkSensor { Sensor_Type : string; Sensor_ID : Z }.

Record NewLight : Type := mkNewLight {
  NewLight_Lights : list string;
  NewLight_LastScan : string
}.

(** ** Observations

    [attribute.KeyValue] and what [metric.Int64ObserverResult.Observe]
    records: the observer result is the sequence of observations made so far,
    every [Observe] appends one. *)
Inductive Value : Type :=
| BoolValue (b : bool)
| IntValue (i : Z)
| StringValue (s : string).

Record KeyValue : Type := mkKV { Key : string; Val : Value }.

Definition attribute_Bool (k : string) (b : bool) : KeyValue := mkKV k (BoolValue b).
Definition attribute_Int (k : string) (i : Z) : KeyValue := mkKV k (IntValue i).
Definition attribute_String (k : string) (s : string) : KeyValue := mkKV k (StringValue s).

Record Observation : Type := mkObservation {
  obs_value : Z;
  obs_labels : list KeyValue
}.

Definition Int64ObserverResult : Type := list Observation.

Definition Observe (value : Z) (labels : list KeyValue)
    (res : Int64ObserverResult) : Int64ObserverResult :=
  (res ++ [mkObservation value labels])%list.

(** Go's [len] on a slice. *)
Definition len {A : Type} (xs : list A) : Z := Z.of_nat (List.length xs).

(** A gauge callback: run by the meter on an observer result. *)
Definition Int64ObserverFunc : Type := Int64ObserverResult -> Int64ObserverResult.

(** [for _, x := range xs { body }] over an observer result. *)
Fixpoint range {A : Type} (xs : list A)
    (body : A -> Int64ObserverResult -> Int64ObserverResult)
    (res : Int64ObserverResult) : Int64ObserverResult :=
  match xs with
  | [] => res
  | x :: rest => range rest body (body x res)
  end.

(** The value of the label [k] of an observation, if it has one. *)
Fixpoint lookup_label (k : string) (labels : list KeyValue) : option Value :=
  match labels with
  | [] => None
  | kv :: rest => if String.eqb (Key kv) k then Some (Val kv) else lookup_label k rest
  end.

Definition label (k : string) (o : Observation) : option Value :=
  lookup_label k (obs_labels o).

(** ** Group membership *)

(** [strconv.Itoa]: decimal text, with a minus sign below zero. *)
Definition Itoa (i : Z) : string := NilZero.string_of_int (Z.to_int i).

Definition lightGroup : Type := Group.
Definition lightGroups : Type := list lightGroup.

(** The method [lightExists] of [lightGroup]: the group lists the decimal
    text of [id]. *)
Fixpoint lightGroup_lightExists_loop (members : list string) (id : Z) : bool :=
  match members with
  | [] => false
  | light :: rest =>
      if String.eqb light (Itoa id) then true
      else lightGroup_lightExists_loop rest id
  end.

Definition lightGroup_lightExists (lg : lightGroup) (id : Z) : bool :=
  lightGroup_lightExists_loop (Group_Lights lg) id.

(** [lightGroups.lightExists]: the first group, in order, that lists [id];
    [None] is Go's nil pointer. *)
Fixpoint lightExists (lgs : lightGroups) (id : Z) : option lightGroup :=
  match lgs with
  | [] => None
  | g :: rest =>
      if lightGroup_lightExists g id then Some g else lightExists rest id
  end.

(** The [assignedGroup] variable of the two light observers. *)
Definition assignedGroup (groups : lightGroups) (l : Light) : string :=
  match lightExists groups (Light_ID l) with
  | Some group => Group_Name group
  | None => ""
  end.

(** ** The observers *)

Definition lightObserver (lights : list Light) (groups : lightGroups)
    : Int64ObserverFunc :=
  fun res =>
    if len lights =? 0 then Observe 0 [] res
    else
      range lights (fun l =>
        Observe 1
          [ attribute_Bool "on" (On (Light_State l));
            attribute_Int "id" (Light_ID l);
            attribute_String "group" (assignedGroup groups l) ]) res.

Definition lightBrightnessObserver (lights : list Light) (groups : lightGroups)
    : Int64ObserverFunc :=
  fun res =>
    if len lights =? 0 then Observe 0 [] res
    else
      range lights (fun l =>
        Observe (Bri (Light_State l))
          [ attribute_Bool "on" (On (Light_State l));
            attribute_Int "id" (Light_ID l);
            attribute_String "group" (assignedGroup groups l) ]) res.

Definition newLightObserver (v : NewLight) : Int64ObserverFunc :=
  fun res =>
    if len (NewLight_Lights v) =? 0 then
      Observe 0 [ attribute_String "lastScan" (NewLight_LastScan v) ] res
    else
      range (NewLight_Lights v) (fun l =>
        Observe 1
          [ attribute_String "name" l;
            attribute_String "lastScan" (NewLight_LastScan v) ]) res.

Definition groupObserver (groups : list Group) : Int64ObserverFunc :=
  fun res =>
    if len groups =? 0 then Observe 0 [] res
    else
      range groups (fun g =>
        Observe 1
          [ attribute_Bool "on" (On (Group_State g));
            attribute_Int "id" (Group_ID g);
            attribute_Int "bri" (Bri (Group_State g));
            attribute_String "name" (Group_Name g) ]) res.

Definition sensorObserver (sensors : list Sensor) : Int64ObserverFunc :=
  fun res =>
    if len sensors =? 0 then Observe 0 [] res
    else
      range sensors (fun s =>
        Observe 1
          [ attribute_String "type" (Sensor_Type s);
            attribute_Int "id" (Sensor_ID s) ]) res.

(** ** What a run leaves behind

    Spans, log records and gauge registrations, in the order one job (or the
    loop) makes them.  A registration records the answer of the meter: [None]
    is a nil error. *)
Inductive Level : Type := InfoLevel | ErrorLevel.

Inductive Field : Type :=
| zap_Error (err : error)
| zap_Int (key : string) (value : Z).

Inductive event : Type :=
| SpanStart (name : string)
| SpanEnd (name : string)
| Log (level : Level) (msg : string) (fields : list Field)
| NewInt64GaugeObserver (name : string) (callback : Int64ObserverFunc)
    (answer : option error).

Definition trace : Type := list event.

(** ** The collaborators' answers

    [result] is Go's pair of a value and an error.  A [World] holds what the
    bridge and the meter answer to one job during one cycle. *)
Inductive result (A : Type) : Type :=
| Ok (a : A)
| Err (err : error).
Arguments Ok {A} a.
Arguments Err {A} err.

Record BridgeAnswers : Type := mkBridgeAnswers {
  GetGroupsContext : result (list Group);
  GetLightsContext : result (list Light);
  GetNewLightsContext : result NewLight;
  GetSensorsContext : result (list Sensor)
}.

Record World : Type := mkWorld {
  hue : BridgeAnswers;
  meter : string -> option error   (* the meter's answer, by instrument name *)
}.

(** ** The job monad: a trace written to, and an early return on error *)
Definition Job (A : Type) : Type := trace -> trace * result A.

Definition ret {A : Type} (a : A) : Job A := fun tr => (tr, Ok a).

Definition bind {A B : Type} (m : Job A) (k : A -> Job B) : Job B :=
  fun tr =>
    match m tr with
    | (tr', Ok a) => k a tr'
    | (tr', Err err) => (tr', Err err)
    end.

Definition emit (e : event) : Job unit := fun tr => ((tr ++ [e])%list, Ok tt).

(** [return err]. *)
Definition fail {A : Type} (err : error) : Job A := fun tr => (tr, Err err).

(** [defer f()]: [e] is recorded when the body is left, either way. *)
Definition defer {A : Type} (e : event) (body : Job A) : Job A :=
  fun tr => let (tr', r) := body tr in ((tr' ++ [e])%list, r).

Declare Scope job_scope.
Delimit Scope job_scope with job.
Notation "x <- m ;; k" := (bind m (fun x => k))
  (at level 61, m at next level, right associativity) : job_scope.
Notation "m ;; k" := (bind m (fun _ => k))
  (at level 61, right associativity) : job_scope.
Local Open Scope job_scope.

Definition log_Error (msg : string) (err : error) : Job unit :=
  emit (Log ErrorLevel msg [zap_Error err]).

Definition log_Info (msg : string) (fields : list Field) : Job unit :=
  emit (Log InfoLevel msg fields).

(** A call of [meter.NewInt64GaugeObserver]; its error is the result. *)
Definition register (w : World) (name : string) (callback : Int64ObserverFunc)
    : Job (option error) :=
  fun tr =>
    ((tr ++ [NewInt64GaugeObserver name callback (meter w name)])%list,
     Ok (meter w name)).

(** ** The collection jobs *)

(** [groups = append(groups, lightGroup{group})] over the fetched groups. *)
Definition to_lightGroups (hueGroups : list Group) : lightGroups :=
  fold_left (fun groups group => (groups ++ [group])%list) hueGroups [].

Definition lights_Collect (w : World) : Job unit :=
  emit (SpanStart "lights.Collect") ;;
  defer (SpanEnd "lights.Collect")
    match GetGroupsContext (hue w) with
    | Err err => log_Error "failed to fetch groups" err ;; fail err
    | Ok hueGroups =>
    let groups := to_lightGroups hueGroups in
    match GetLightsContext (hue w) with
    | Err err => log_Error "failed to fetch lights" err ;; fail err
    | Ok lights =>
    log_Info "collecting lights" [zap_Int "count" (len lights)] ;;
    r <- register w "light" (lightObserver lights groups) ;;
    match r with
    | Some err =>
        log_Error "failed to record light count" err ;;
        fail (Wrapped "failed to collect light count" err)
    | None =>
    log_Info "collecting light brightness" [zap_Int "count" (len lights)] ;;
    r <- register w "light_brightness" (lightBrightnessObserver lights groups) ;;
    match r with
    | Some err =>
        log_Error "failed to record light brightness" err ;;
        fail (Wrapped "failed to collect light brightness" err)
    | None =>
    log_Info "collected light metrics" [] ;;
    match GetNewLightsContext (hue w) with
    | Err err => log_Error "failed to fetch new lights" err ;; fail err
    | Ok newLights =>
    log_Info "collecting new lights" [zap_Int "count" (len lights)] ;;
    r <- register w "new_light" (newLightObserver newLights) ;;
    match r with
    | Some err =>
        log_Error "failed to record new light count" err ;;
        fail (Wrapped "failed to collect new light count" err)
    | None => ret tt
    end end end end end end.

Definition groups_Collect (w : World) : Job unit :=
  emit (SpanStart "groups.Collect") ;;
  defer (SpanEnd "groups.Collect")
    match GetGroupsContext (hue w) with
    | Err err => log_Error "failed to fetch groups" err ;; fail err
    | Ok groups =>
    log_Info "collecting groups" [zap_Int "count" (len groups)] ;;
    r <- register w "group" (groupObserver groups) ;;
    match r with
    | Some err =>
        log_Error "failed to record group count" err ;;
        fail (Wrapped "failed to collect group count" err)
    | None =>
    log_Info "collected group metrics" [] ;;
    ret tt
    end end.

Definition sensors_Collect (w : World) : Job unit :=
  emit (SpanStart "sensors.Collect") ;;
  defer (SpanEnd "sensors.Collect")
    match GetSensorsContext (hue w) with
    | Err err => log_Error "failed to fetch sensors" err ;; fail err
    | Ok sensors =>
    log_Info "collecting sensors" [zap_Int "count" (len sensors)] ;;
    r <- register w "sensors" (sensorObserver sensors) ;;
    match r with
    | Some err =>
        log_Error "failed to record group count" err ;;
        fail (Wrapped "failed to collect group count" err)
    | None =>
    log_Info "collected group metrics" [] ;;
    ret tt
    end end.

(** The names of the gauges a trace tried to register, and of those the
    meter accepted. *)
Fixpoint attempted (tr : trace) : list string :=
  match tr with
  | [] => []
  | NewInt64GaugeObserver name _ _ :: rest => name :: attempted rest
  | _ :: rest => attempted rest
  end.

Fixpoint registered (tr : trace) : list string :=
  match tr with
  | [] => []
  | NewInt64GaugeObserver name _ None :: rest => name :: registered rest
  | _ :: rest => registered rest
  end.

(** The error a job returns: [None] is nil. *)
Definition returned {A : Type} (r : trace * result A) : option error :=
  match snd r with
  | Ok _ => None
  | Err err => Some err
  end.

(** ** The Gatherer

    The handles a Gatherer holds.  [None] in a field is Go's nil (for the
    meter: the zero value no option has set). *)
Record TraceLogger : Type := mkTraceLogger { logger_name : string }.

Record MeterProvider : Type := mkMeterProvider { provider_name : string }.

Record Meter : Type := mkMeter {
  Meter_provider : MeterProvider;
  Meter_instrumentation : string
}.

Record HueConfig : Type := mkHueConfig { IP : string; Username : string }.

(** [huego.New(host, user)]. *)
Record Bridge : Type := mkBridge { Host : string; User : string }.

(** The fields the three job structs share. *)
Record deps : Type := mkDeps {
  deps_log : option TraceLogger;
  deps_meter : option Meter;
  deps_hue : option Bridge
}.

(** The implementations of the interface [CollectJob]. *)
Inductive CollectJob : Type :=
| Lights (d : deps)
| Groups (d : deps)
| Sensors (d : deps).

Definition Collect (job : CollectJob) (w : World) : Job unit :=
  match job with
  | Lights _ => lights_Collect w
  | Groups _ => groups_Collect w
  | Sensors _ => sensors_Collect w
  end.

Record Gatherer : Type := mkGatherer {
  Gatherer_log : option TraceLogger;
  Gatherer_meter : option Meter;
  Gatherer_ticker : Z;                 (* the period, in nanoseconds *)
  Gatherer_hue : option Bridge;
  Gatherer_jobs : list CollectJob
}.

Definition Second : Z := 1000000000.

(** A call that either panics or returns. *)
Inductive call (A : Type) : Type :=
| Panics
| Returns (a : A).
Arguments Panics {A}.
Arguments Returns {A} a.

(** [time.NewTicker(d)] panics unless the period is greater than zero. *)
Definition time_NewTicker (d : Z) : call Z :=
  if d <=? 0 then Panics else Returns d.

(** [ex.Meter(name)] on a meter provider; the call on a nil interface
    panics. *)
Definition MeterProvider_Meter (ex : option MeterProvider) (name : string)
    : call Meter :=
  match ex with
  | None => Panics
  | Some provider => Returns (mkMeter provider name)
  end.

(** The options the package builds; the argument of [WithLogger] and of
    [WithExporter] may be nil. *)
Inductive Option : Type :=
| WithLogger (l : option TraceLogger)
| WithTicker (d : Z)
| WithExporter (ex : option MeterProvider)
| WithHueConfig (cfg : HueConfig).

(** [opt(g)]. *)
Definition apply_Option (g : Gatherer) (opt : Option) : call Gatherer :=
  match opt with
  | WithLogger l =>
      Returns
        (mkGatherer l (Gatherer_meter g) (Gatherer_ticker g) (Gatherer_hue g)
           (Gatherer_jobs g))
  | WithTicker d =>
      match time_NewTicker d with
      | Panics => Panics
      | Returns ticker =>
          Returns
            (mkGatherer (Gatherer_log g) (Gatherer_meter g) ticker
               (Gatherer_hue g) (Gatherer_jobs g))
      end
  | WithExporter ex =>
      match MeterProvider_Meter ex "hue" with
      | Panics => Panics
      | Returns m =>
          Returns
            (mkGatherer (Gatherer_log g) (Some m) (Gatherer_ticker g)
               (Gatherer_hue g) (Gatherer_jobs g))
      end
  | WithHueConfig cfg =>
      Returns
        (mkGatherer (Gatherer_log g) (Gatherer_meter g) (Gatherer_ticker g)
           (Some (mkBridge (IP cfg) (Username cfg))) (Gatherer_jobs g))
  end.

Definition valid (g : Gatherer) : option error :=
  match Gatherer_log g with
  | None => Some ErrInvalidLogger
  | Some _ => None
  end.

(** [for _, opt := range opts { opt(g) }]: the first option that panics
    ends the loop. *)
Fixpoint apply_Options (opts : list Option) (g : Gatherer) : call Gatherer :=
  match opts with
  | [] => Returns g
  | opt :: rest =>
      match apply_Option g opt with
      | Panics => Panics
      | Returns g' => apply_Options rest g'
      end
  end.

(** The Gatherer before [valid] is asked: made with a ticker of five
    seconds, then handed to the options one after the other. *)
Definition configure (opts : list Option) : call Gatherer :=
  match time_NewTicker (Second * 5) with
  | Panics => Panics
  | Returns ticker => apply_Options opts (mkGatherer None None ticker None [])
  end.

(** When it returns, [NewGatherer] returns Go's pair: the collector (nil on
    failure) and the error (nil on success). *)
Definition NewGatherer (opts : list Option)
    : call (option Gatherer * option error) :=
  match configure opts with
  | Panics => Panics
  | Returns g =>
      match valid g with
      | Some err => Returns (None, Some err)
      | None =>
          let d := mkDeps (Gatherer_log g) (Gatherer_meter g) (Gatherer_hue g) in
          Returns
            (Some (mkGatherer (Gatherer_log g) (Gatherer_meter g)
                     (Gatherer_ticker g) (Gatherer_hue g)
                     [Lights d; Groups d; Sensors d]),
             None)
      end
  end.

(** The variant of the package that still holds the Prometheus exporter. *)
Module Prometheus.

Record Exporter : Type := mkExporter { exporter_name : string }.

Record Gatherer : Type := mkGatherer {
  Gatherer_log : option TraceLogger;
  Gatherer_exporter : option Exporter;
  Gatherer_meter : option Meter;
  Gatherer_ticker : Z;
  Gatherer_hue : option Bridge;
  Gatherer_jobs : list CollectJob
}.

(** [ex.MeterProvider()]; the method reads its receiver, so the call on a
    nil exporter panics. *)
Definition Exporter_MeterProvider (ex : option Exporter) : call MeterProvider :=
  match ex with
  | None => Panics
  | Some e => Returns (mkMeterProvider (exporter_name e))
  end.

Inductive Option : Type :=
| WithLogger (l : option TraceLogger)
| WithTicker (d : Z)
| WithExporter (ex : option Exporter)
| WithHueConfig (cfg : HueConfig).

Definition apply_Option (g : Gatherer) (opt : Option) : call Gatherer :=
  match opt with
  | WithLogger l =>
      Returns
        (mkGatherer l (Gatherer_exporter g) (Gatherer_meter g)
           (Gatherer_ticker g) (Gatherer_hue g) (Gatherer_jobs g))
  | WithTicker d =>
      match time_NewTicker d with
      | Panics => Panics
      | Returns ticker =>
          Returns
            (mkGatherer (Gatherer_log g) (Gatherer_exporter g)
               (Gatherer_meter g) ticker (Gatherer_hue g) (Gatherer_jobs g))
      end
  | WithExporter ex =>
      match Exporter_MeterProvider ex with
      | Panics => Panics
      | Returns provider =>
          match MeterProvider_Meter (Some provider) "hue" with
          | Panics => Panics
          | Returns m =>
              Returns
                (mkGatherer (Gatherer_log g) ex (Some m) (Gatherer_ticker g)
                   (Gatherer_hue g) (Gatherer_jobs g))
          end
      end
  | WithHueConfig cfg =>
      Returns
        (mkGatherer (Gatherer_log g) (Gatherer_exporter g) (Gatherer_meter g)
           (Gatherer_ticker g) (Some (mkBridge (IP cfg) (Username cfg)))
           (Gatherer_jobs g))
  end.

Definition valid (g : Gatherer) : option error :=
  match Gatherer_log g with
  | None => Some ErrInvalidLogger
  | Some _ =>
      match Gatherer_exporter g with
      | None => Some ErrInvalidExporter
      | Some _ => None
      end
  end.

Fixpoint apply_Options (opts : list Option) (g : Gatherer) : call Gatherer :=
  match opts with
  | [] => Returns g
  | opt :: rest =>
      match apply_Option g opt with
      | Panics => Panics
      | Returns g' => apply_Options rest g'
      end
  end.

Definition configure (opts : list Option) : call Gatherer :=
  match time_NewTicker (Second * 5) with
  | Panics => Panics
  | Returns ticker =>
      apply_Options opts (mkGatherer None None None ticker None [])
  end.

Definition NewGatherer (opts : list Option)
    : call (option Gatherer * option error) :=
  match configure opts with
  | Panics => Panics
  | Returns g =>
      match valid g with
      | Some err => Returns (None, Some err)
      | None =>
          let d := mkDeps (Gatherer_log g) (Gatherer_meter g) (Gatherer_hue g) in
          Returns
            (Some (mkGatherer (Gatherer_log g) (Gatherer_exporter g)
                     (Gatherer_meter g) (Gatherer_ticker g) (Gatherer_hue g)
                     [Lights d; Groups d; Sensors d]),
             None)
      end
  end.

(** The option cannot be applied: its call panics. *)
Definition Option_panics (opt : Option) : bool :=
  match opt with
  | WithTicker d => d <=? 0
  | WithExporter None => true
  | _ => false
  end.

End Prometheus.

(** The option cannot be applied: its call panics. *)
Definition Option_panics (opt : Option) : bool :=
  match opt with
  | WithTicker d => d <=? 0
  | WithExporter None => true
  | _ => false
  end.

(** ** The loop of [Run]

    One [cycle] is what the surroundings contribute to one iteration: the
    answers each launched job gets (by its position in [g.jobs]), the instant
    each job returns, and how the [select] after the wait finds its two
    channels. *)
Inductive select_env : Type :=
| TickReady                                     (* only the ticker's channel *)
| DoneReady (err : error)                       (* only ctx.Done(); err is ctx.Err() *)
| BothReady (err : error) (tick_chosen : bool). (* both: the runtime picks one *)

Inductive branch : Type :=
| case_ticker
| case_ctx_Done (err : error).

Definition select (s : select_env) : branch :=
  match s with
  | TickReady => case_ticker
  | DoneReady err => case_ctx_Done err
  | BothReady err true => case_ticker
  | BothReady err false => case_ctx_Done err
  end.

(** [ctx.Err()] at the time of the select: [None] is nil. *)
Definition ctx_Err (s : select_env) : option error :=
  match s with
  | TickReady => None
  | DoneReady err => Some err
  | BothReady err _ => Some err
  end.

Record cycle : Type := mkCycle {
  world : nat -> World;
  finish : nat -> nat;
  sel : select_env
}.

(** What one job did: its own trace and the error it returned. *)
Record job_report : Type := mkJobReport {
  job_trace : trace;
  job_err : option error
}.

(** What one iteration did: the jobs, in launch order, and the records of the
    loop itself. *)
Record cycle_report : Type := mkCycleReport {
  jobs_run : list job_report;
  loop_trace : trace
}.

(** [for _, job := range g.jobs { grp.Go(job.Collect(ctx)) }]: every job
    runs on its own; [i] is the position of the first job of [jobs]. *)
Fixpoint launch (jobs : list CollectJob) (c : cycle) (i : nat) : list job_report :=
  match jobs with
  | [] => []
  | job :: rest =>
      let r := Collect job (world c i) [] in
      mkJobReport (fst r) (returned r) :: launch rest c (S i)
  end.

(** [grp.Wait()]: the error of the job that failed first, nil if none did.
    [best] is the earliest failure seen so far with its instant. *)
Fixpoint Wait_loop (reports : list job_report) (fin : nat -> nat) (i : nat)
    (best : option (nat * error)) : option error :=
  match reports with
  | [] => option_map snd best
  | r :: rest =>
      let best' :=
        match job_err r, best with
        | None, _ => best
        | Some err, None => Some (fin i, err)
        | Some err, Some (t, _) =>
            if (fin i <? t)%nat then Some (fin i, err) else best
        end in
      Wait_loop rest fin (S i) best'
  end.

Definition Wait (reports : list job_report) (fin : nat -> nat) : option error :=
  Wait_loop reports fin 0%nat None.

Inductive outcome : Type :=
| Returned (err : error)   (* Run returned err *)
| Running.                 (* the loop is about to start its next iteration *)

Definition span_Run : string := "collector/gatherer.Run".

(** The part of an iteration before the select. *)
Definition gather (g : Gatherer) (c : cycle) : list job_report * trace :=
  let reports := launch (Gatherer_jobs g) c 0%nat in
  let tr := [SpanStart span_Run] in
  let tr :=
    match Wait reports (finish c) with
    | Some err =>
        (tr ++ [Log ErrorLevel "job failed to collect metrics" [zap_Error err]])%list
    | None => tr
    end in
  (reports, tr).

(** [Run] over the cycles the surroundings supply; [done] holds the reports
    of the iterations before. *)
Fixpoint Run_from (g : Gatherer) (script : list cycle) (done : list cycle_report)
    : list cycle_report * outcome :=
  match script with
  | [] => (done, Running)
  | c :: rest =>
      let (reports, tr) := gather g c in
      match select (sel c) with
      | case_ticker =>
          Run_from g rest
            (done ++ [mkCycleReport reports (tr ++ [SpanEnd span_Run])])%list
      | case_ctx_Done err =>
          ((done ++
             [mkCycleReport reports
                (tr ++ [Log ErrorLevel "context was cancelled" [zap_Error err];
                        SpanEnd span_Run])])%list,
           Returned err)
      end
  end.

Definition Run (g : Gatherer) (script : list cycle) : list cycle_report * outcome :=
  Run_from g script [].

(** ** The Observation Recorder as one function

    The five observers, indexed by the batch they are built from. *)
Inductive batch : Type :=
| light_batch (lights : list Light) (groups : lightGroups)
| brightness_batch (lights : list Light) (groups : lightGroups)
| new_light_batch (v : NewLight)
| group_batch (groups : list Group)
| sensor_batch (sensors : list Sensor).

Definition size (b : batch) : nat :=
  match b with
  | light_batch lights _ => List.length lights
  | brightness_batch lights _ => List.length lights
  | new_light_batch v => List.length (NewLight_Lights v)
  | group_batch groups => List.length groups
  | sensor_batch sensors => List.length sensors
  end.

Definition recorder (b : batch) : Int64ObserverFunc :=
  match b with
  | light_batch lights groups => lightObserver lights groups
  | brightness_batch lights groups => lightBrightnessObserver lights groups
  | new_light_batch v => newLightObserver v
  | group_batch groups => groupObserver groups
  | sensor_batch sensors => sensorObserver sensors
  end.

(** The label keys whose value is read from one entity of the batch; the
    key lastScan is read from the batch as a whole. *)
Definition entity_keys : list string :=
  ["on"; "id"; "group"; "bri"; "name"; "type"].

Definition identifying (kv : KeyValue) : bool :=
  existsb (String.eqb (Key kv)) entity_keys.

(** The light's id is among the members the group lists. *)
Definition member (id : Z) (g : Group) : Prop := In (Itoa id) (Group_Lights g).

(** The label that tells the entities of a batch apart, and its values over
    the batch, in the order of the input. *)
Definition tag_key (b : batch) : string :=
  match b with
  | new_light_batch _ => "name"
  | _ => "id"
  end.

Definition tags (b : batch) : list (option Value) :=
  match b with
  | light_batch lights _ => map (fun l => Some (IntValue (Light_ID l))) lights
  | brightness_batch lights _ => map (fun l => Some (IntValue (Light_ID l))) lights
  | new_light_batch v => map (fun l => Some (StringValue l)) (NewLight_Lights v)
  | group_batch groups => map (fun g => Some (IntValue (Group_ID g))) groups
  | sensor_batch sensors => map (fun s => Some (IntValue (Sensor_ID s))) sensors
  end.

(** ** Sample data

    Three lights, the first one in Group A; and a bridge on which light 1 is
    listed by two groups. *)
Definition sample_lights : list Light :=
  [ mkLight (mkState true 254) 1;
    mkLight (mkState false 0) 2;
    mkLight (mkState true 127) 3 ].

Definition group_A : Group := mkGroup "Group A" ["1"] (mkState true 254) 1.

Definition living_room : Group :=
  mkGroup "Living room" ["2"; "1"] (mkState true 254) 4.

Definition upstairs : Group := mkGroup "Upstairs" ["1"; "3"] (mkState true 127) 5.

Definition kitchen : Group := mkGroup "Kitchen" ["3"; "11"] (mkState false 0) 6.

(** A bridge that answers every fetch, one whose new-lights fetch fails, and
    meters that accept or refuse every gauge. *)
Definition sample_sensors : list Sensor :=
  [ mkSensor "Daylight" 1; mkSensor "ZLLSwitch" 2 ].

Definition bridge_up : BridgeAnswers :=
  mkBridgeAnswers (Ok [group_A]) (Ok sample_lights)
    (Ok (mkNewLight [] "none")) (Ok sample_sensors).

Definition bridge_new_lights_down : BridgeAnswers :=
  mkBridgeAnswers (Ok [group_A]) (Ok sample_lights)
    (Err (External "new lights: timeout")) (Ok sample_sensors).

Definition bridge_down : BridgeAnswers :=
  mkBridgeAnswers (Err (External "groups: timeout"))
    (Err (External "lights: timeout")) (Err (External "new lights: timeout"))
    (Err (External "sensors: timeout")).

Definition meter_accepts : string -> option error := fun _ => None.

Definition meter_refuses : string -> option error :=
  fun _ => Some (External "metric was already registered").

(** The option sets the logger. *)
Definition is_WithLogger (opt : Option) : bool :=
  match opt with WithLogger _ => true | _ => false end.

(** How a run over the given selects ends, the jobs left aside. *)
Fixpoint outcome_of (sels : list select_env) : outcome :=
  match sels with
  | [] => Running
  | s :: rest =>
      match select s with
      | case_ticker => outcome_of rest
      | case_ctx_Done err => Returned err
      end
  end.

(** A job has run to its end: its trace opens with its span and closes with
    the end of that span. *)
Definition finished (r : job_report) : Prop :=
  exists name : string,
    hd_error (job_trace r) = Some (SpanStart name) /\
    last (job_trace r) (SpanStart name) = SpanEnd name.

(** A Gatherer as [main] builds it, and cycles to run it on. *)
Definition sample_options : list Option :=
  [ WithLogger (Some (mkTraceLogger "zap"));
    WithExporter (Some (mkMeterProvider "global"));
    WithHueConfig (mkHueConfig "192.168.1.2" "user") ].

Definition sample_deps : deps :=
  mkDeps (Some (mkTraceLogger "zap"))
    (Some (mkMeter (mkMeterProvider "global") "hue"))
    (Some (mkBridge "192.168.1.2" "user")).

Definition sample_gatherer : Gatherer :=
  mkGatherer (Some (mkTraceLogger "zap"))
    (Some (mkMeter (mkMeterProvider "global") "hue")) (Second * 5)
    (Some (mkBridge "192.168.1.2" "user"))
    [Lights sample_deps; Groups sample_deps; Sensors sample_deps].

(** Every job fails, in launch order. *)
Definition failing_cycle (s : select_env) : cycle :=
  mkCycle (fun _ => mkWorld bridge_down meter_accepts) (fun i => i) s.

Definition quiet_cycle (s : select_env) : cycle :=
  mkCycle (fun _ => mkWorld bridge_up meter_accepts) (fun i => i) s.

(** ** Reading a trace *)

(** The gauges a job owns, in the order it registers them, and the name of
    its span. *)
Definition families (job : CollectJob) : list string :=
  match job with
  | Lights _ => ["light"; "light_brightness"; "new_light"]
  | Groups _ => ["group"]
  | Sensors _ => ["sensors"]
  end.

Definition span_name (job : CollectJob) : string :=
  match job with
  | Lights _ => "lights.Collect"
  | Groups _ => "groups.Collect"
  | Sensors _ => "sensors.Collect"
  end.

(** The span events of a trace, the fields of its Error-level records, the
    count fields of its Info-level records, and the callbacks handed to the
    meter with the name they were handed under. *)
Fixpoint span_events (tr : trace) : trace :=
  match tr with
  | [] => []
  | SpanStart name :: rest => SpanStart name :: span_events rest
  | SpanEnd name :: rest => SpanEnd name :: span_events rest
  | _ :: rest => span_events rest
  end.

Fixpoint error_records (tr : trace) : list (list Field) :=
  match tr with
  | [] => []
  | Log ErrorLevel _ fields :: rest => fields :: error_records rest
  | _ :: rest => error_records rest
  end.

Fixpoint field_counts (fields : list Field) : list Z :=
  match fields with
  | [] => []
  | zap_Int _ value :: rest => value :: field_counts rest
  | _ :: rest => field_counts rest
  end.

Fixpoint info_counts (tr : trace) : list Z :=
  match tr with
  | [] => []
  | Log InfoLevel _ fields :: rest => field_counts fields ++ info_counts rest
  | _ :: rest => info_counts rest
  end.

Fixpoint callbacks (tr : trace) : list (string * Int64ObserverFunc) :=
  match tr with
  | [] => []
  | NewInt64GaugeObserver name callback _ :: rest =>
      (name, callback) :: callbacks rest
  | _ :: rest => callbacks rest
  end.

(** The batch a callback registered under [name] reports, given what the
    bridge answered to the job. *)
Definition fetched (w : World) (name : string) (b : batch) : Prop :=
  match b with
  | light_batch lights groups =>
      name = "light" /\ GetLightsContext (hue w) = Ok lights /\
      GetGroupsContext (hue w) = Ok groups
  | brightness_batch lights groups =>
      name = "light_brightness" /\ GetLightsContext (hue w) = Ok lights /\
      GetGroupsContext (hue w) = Ok groups
  | new_light_batch v =>
      name = "new_light" /\ GetNewLightsContext (hue w) = Ok v
  | group_batch groups =>
      name = "group" /\ GetGroupsContext (hue w) = Ok groups
  | sensor_batch sensors =>
      name = "sensors" /\ GetSensorsContext (hue w) = Ok sensors
  end.

(** The records the loop itself makes in one cycle about failed jobs. *)
Definition job_failure_records (report : cycle_report) : list (list Field) :=
  error_records
    (filter (fun e => match e with
                      | Log _ msg _ => String.eqb msg "job failed to collect metrics"
                      | _ => false
                      end) (loop_trace report)).

(** The observers of the variant that holds the Prometheus exporter whose
    labels are booleans, ints and strings: they have no case for an empty
    batch, and the brightness observer carries no group label. *)
Module ValueObservers.

Definition lightBrightnessObserver (lights : list Light) : Int64ObserverFunc :=
  fun res =>
    range lights (fun l =>
      Observe (Bri (Light_State l))
        [ attribute_Bool "on" (On (Light_State l));
          attribute_Int "id" (Light_ID l) ]) res.

Definition newLightObserver (v : NewLight) : Int64ObserverFunc :=
  fun res =>
    range (NewLight_Lights v) (fun l =>
      Observe 1
        [ attribute_String "name" l;
          attribute_String "lastScan" (NewLight_LastScan v) ]) res.

Definition sensorObserver (sensors : list Sensor) : Int64ObserverFunc :=
  fun res =>
    range sensors (fun s =>
      Observe 1
        [ attribute_String "type" (Sensor_Type s);
          attribute_Int "id" (Sensor_ID s) ]) res.

End ValueObservers.

(** * Properties *)

Example Itoa_12 : Itoa 12 = "12".
Proof. reflexivity. Qed.

Example Itoa_0 : Itoa 0 = "0".
Proof. reflexivity. Qed.

Example Itoa_neg : Itoa (-7) = "-7".
Proof. reflexivity. Qed.

(** Three lights, the first one in Group A. *)
Example three_lights_one_grouped :
  lightObserver sample_lights [group_A] []
  = [ mkObservation 1 [ attribute_Bool "on" true; attribute_Int "id" 1;
                        attribute_String "group" "Group A" ];
      mkObservation 1 [ attribute_Bool "on" false; attribute_Int "id" 2;
                        attribute_String "group" "" ];
      mkObservation 1 [ attribute_Bool "on" true; attribute_Int "id" 3;
                        attribute_String "group" "" ] ]
  /\ map obs_value (lightBrightnessObserver sample_lights [group_A] [])
     = [254; 0; 127]
  /\ map obs_labels (lightBrightnessObserver sample_lights [group_A] [])
     = map obs_labels (lightObserver sample_lights [group_A] []).
Proof. repeat split. Qed.

(** The same light fetched twice is observed twice. *)
Example duplicates_are_kept :
  map (label "id")
    (lightObserver [mkLight (mkState true 10) 7; mkLight (mkState true 10) 7]
       [] [])
  = [Some (IntValue 7); Some (IntValue 7)].
Proof. reflexivity. Qed.

(** A group that lists 11 does not list 1. *)
Example kitchen_does_not_list_1 :
  lightGroup_lightExists kitchen 1 = false /\
  lightGroup_lightExists kitchen 11 = true.
Proof. split; reflexivity. Qed.

(** ** The observers *)

Section Observers.

Lemma len_eqb_0 {A : Type} (xs : list A) :
  (len xs =? 0) = match xs with [] => true | _ :: _ => false end.
Proof.
  destruct xs as [|x xs]; [reflexivity|].
  unfold len. apply Z.eqb_neq. simpl List.length. lia.
Qed.

(** A loop whose body observes once per element appends the image of the
    list, in order. *)
Lemma range_Observe {A : Type} (value : A -> Z) (labels : A -> list KeyValue) :
  forall (xs : list A) (res : Int64ObserverResult),
    range xs (fun x => Observe (value x) (labels x)) res
    = (res ++ map (fun x => mkObservation (value x) (labels x)) xs)%list.
Proof.
  induction xs as [|x xs IH]; intros res; simpl.
  - now rewrite app_nil_r.
  - rewrite IH. unfold Observe. now rewrite <- app_assoc.
Qed.

Lemma lightObserver_cons l lights groups res :
  lightObserver (l :: lights) groups res
  = (res ++ map (fun l => mkObservation 1
                   [ attribute_Bool "on" (On (Light_State l));
                     attribute_Int "id" (Light_ID l);
                     attribute_String "group" (assignedGroup groups l) ])
               (l :: lights))%list.
Proof.
  unfold lightObserver. rewrite len_eqb_0.
  exact (range_Observe (fun _ => 1) _ (l :: lights) res).
Qed.

Lemma lightBrightnessObserver_cons l lights groups res :
  lightBrightnessObserver (l :: lights) groups res
  = (res ++ map (fun l => mkObservation (Bri (Light_State l))
                   [ attribute_Bool "on" (On (Light_State l));
                     attribute_Int "id" (Light_ID l);
                     attribute_String "group" (assignedGroup groups l) ])
               (l :: lights))%list.
Proof.
  unfold lightBrightnessObserver. rewrite len_eqb_0.
  exact (range_Observe _ _ (l :: lights) res).
Qed.

Lemma newLightObserver_cons l names lastScan res :
  newLightObserver (mkNewLight (l :: names) lastScan) res
  = (res ++ map (fun l => mkObservation 1
                   [ attribute_String "name" l;
                     attribute_String "lastScan" lastScan ])
               (l :: names))%list.
Proof.
  unfold newLightObserver. cbn [NewLight_Lights NewLight_LastScan].
  rewrite len_eqb_0.
  exact (range_Observe (fun _ => 1) _ (l :: names) res).
Qed.

Lemma groupObserver_cons g groups res :
  groupObserver (g :: groups) res
  = (res ++ map (fun g => mkObservation 1
                   [ attribute_Bool "on" (On (Group_State g));
                     attribute_Int "id" (Group_ID g);
                     attribute_Int "bri" (Bri (Group_State g));
                     attribute_String "name" (Group_Name g) ])
               (g :: groups))%list.
Proof.
  unfold groupObserver. rewrite len_eqb_0.
  exact (range_Observe (fun _ => 1) _ (g :: groups) res).
Qed.

Lemma sensorObserver_cons s sensors res :
  sensorObserver (s :: sensors) res
  = (res ++ map (fun s => mkObservation 1
                   [ attribute_String "type" (Sensor_Type s);
                     attribute_Int "id" (Sensor_ID s) ])
               (s :: sensors))%list.
Proof.
  unfold sensorObserver. rewrite len_eqb_0.
  exact (range_Observe (fun _ => 1) _ (s :: sensors) res).
Qed.

(** Whatever the result holds already, the recorder appends what it
    records on an empty one. *)
Lemma recorder_appends (b : batch) (res : Int64ObserverResult) :
  recorder b res = (res ++ recorder b [])%list.
Proof.
  destruct b as [lights groups|lights groups|[names lastScan]|groups|sensors];
    cbn [recorder].
  - destruct lights; [reflexivity|]. now rewrite !lightObserver_cons.
  - destruct lights; [reflexivity|]. now rewrite !lightBrightnessObserver_cons.
  - destruct names; [reflexivity|]. now rewrite !newLightObserver_cons.
  - destruct groups; [reflexivity|]. now rewrite !groupObserver_cons.
  - destruct sensors; [reflexivity|]. now rewrite !sensorObserver_cons.
Qed.

Lemma recorder_length (b : batch) :
  size b <> 0%nat -> List.length (recorder b []) = size b.
Proof.
  destruct b as [lights groups|lights groups|[names lastScan]|groups|sensors];
    cbn [recorder size NewLight_Lights]; intros Hne.
  - destruct lights; [contradiction|].
    rewrite lightObserver_cons. cbn [app]. apply length_map.
  - destruct lights; [contradiction|].
    rewrite lightBrightnessObserver_cons. cbn [app]. apply length_map.
  - destruct names; [contradiction|].
    rewrite newLightObserver_cons. cbn [app]. apply length_map.
  - destruct groups; [contradiction|].
    rewrite groupObserver_cons. cbn [app]. apply length_map.
  - destruct sensors; [contradiction|].
    rewrite sensorObserver_cons. cbn [app]. apply length_map.
Qed.

End Observers.

(** ** Group lookup *)

Section GroupLookup.

Lemma lightGroup_lightExists_member (g : lightGroup) (id : Z) :
  lightGroup_lightExists g id = true <-> member id g.
Proof.
  unfold lightGroup_lightExists, member.
  induction (Group_Lights g) as [|light rest IH]; simpl.
  - split; [discriminate|contradiction].
  - destruct (String.eqb light (Itoa id)) eqn:E.
    + apply String.eqb_eq in E. split; auto.
    + apply String.eqb_neq in E. rewrite IH. split; [auto|].
      intros [H|H]; [contradiction|exact H].
Qed.

Lemma lightExists_Some (groups : lightGroups) (id : Z) (g : lightGroup) :
  lightExists groups id = Some g -> In g groups /\ member id g.
Proof.
  induction groups as [|g0 rest IH]; simpl; [discriminate|].
  destruct (lightGroup_lightExists g0 id) eqn:E.
  - intros [= <-]. split; [now left|].
    now apply lightGroup_lightExists_member.
  - intros H. destruct (IH H) as [Hin Hm]. split; [now right|exact Hm].
Qed.

Lemma lightExists_None (groups : lightGroups) (id : Z) :
  lightExists groups id = None <->
  (forall g, In g groups -> ~ member id g).
Proof.
  induction groups as [|g0 rest IH]; simpl.
  - split; [intros _ g []|reflexivity].
  - destruct (lightGroup_lightExists g0 id) eqn:E.
    + split; [discriminate|].
      intros H. exfalso. apply (H g0); [now left|].
      now apply lightGroup_lightExists_member.
    + rewrite IH. split.
      * intros H g [<-|Hin]; [|now apply H].
        rewrite <- lightGroup_lightExists_member. now rewrite E.
      * intros H g Hin. apply H. now right.
Qed.

(** The scan stops at the first group that lists the id. *)
Lemma lightExists_first (pre post : lightGroups) (g : lightGroup) (id : Z) :
  (forall g', In g' pre -> ~ member id g') ->
  member id g ->
  lightExists (pre ++ g :: post) id = Some g.
Proof.
  induction pre as [|g0 pre IH]; simpl; intros Hpre Hg.
  - apply lightGroup_lightExists_member in Hg. now rewrite Hg.
  - destruct (lightGroup_lightExists g0 id) eqn:E.
    + exfalso. apply (Hpre g0); [now left|].
      now apply lightGroup_lightExists_member.
    + apply IH; [|exact Hg]. intros g' Hin. apply Hpre. now right.
Qed.

(** The i-th observation of the two light observers. *)
Lemma lightObserver_nth lights groups i l :
  nth_error lights i = Some l ->
  nth_error (lightObserver lights groups []) i
  = Some (mkObservation 1
            [ attribute_Bool "on" (On (Light_State l));
              attribute_Int "id" (Light_ID l);
              attribute_String "group" (assignedGroup groups l) ]).
Proof.
  intros H. destruct lights as [|l0 lights]; [now destruct i|].
  rewrite lightObserver_cons. cbn [app].
  rewrite nth_error_map, H. reflexivity.
Qed.

Lemma lightBrightnessObserver_nth lights groups i l :
  nth_error lights i = Some l ->
  nth_error (lightBrightnessObserver lights groups []) i
  = Some (mkObservation (Bri (Light_State l))
            [ attribute_Bool "on" (On (Light_State l));
              attribute_Int "id" (Light_ID l);
              attribute_String "group" (assignedGroup groups l) ]).
Proof.
  intros H. destruct lights as [|l0 lights]; [now destruct i|].
  rewrite lightBrightnessObserver_cons. cbn [app].
  rewrite nth_error_map, H. reflexivity.
Qed.

End GroupLookup.

(** C3.  On an empty batch every observer records exactly one observation,
    of value 0, and none of its labels is read from an entity: the light,
    brightness, group and sensor observers give it no label at all, the
    new-light observer gives it the batch's lastScan only. *)
Theorem empty_batch_single_zero (b : batch) :
  size b = 0%nat ->
  exists o : Observation,
    recorder b [] = [o] /\
    obs_value o = 0 /\
    filter identifying (obs_labels o) = [] /\
    obs_labels o =
      match b with
      | new_light_batch v => [attribute_String "lastScan" (NewLight_LastScan v)]
      | _ => []
      end.
Proof.
  destruct b as [lights groups|lights groups|[names lastScan]|groups|sensors];
    cbn [size NewLight_Lights]; intros H;
    apply length_zero_iff_nil in H; subst;
    eexists; (split; [reflexivity|]); repeat split.
Qed.

Lemma empty_batch_single_zero_witness :
  exists o : Observation,
    recorder (new_light_batch (mkNewLight [] "2021-05-01T10:00:00")) [] = [o] /\
    obs_value o = 0 /\
    filter identifying (obs_labels o) = [] /\
    obs_labels o = [attribute_String "lastScan" "2021-05-01T10:00:00"].
Proof.
  apply (empty_batch_single_zero
           (new_light_batch (mkNewLight [] "2021-05-01T10:00:00"))).
  reflexivity.
Defined.

(** C6.  On a batch of N > 0 entities every observer records exactly N
    observations, the i-th for the i-th entity, equal entities included.
    A light's observation is labelled with its id and its on state; its
    value is 1 in the light family and the brightness in the brightness
    family.  A group's observation is labelled with its id and on state, a
    sensor's with its id, a new light's with its name. *)
Theorem one_observation_per_entity (b : batch) :
  size b <> 0%nat ->
  List.length (recorder b []) = size b /\
  match b with
  | light_batch lights groups =>
      forall i l, nth_error lights i = Some l ->
        exists o, nth_error (recorder b []) i = Some o /\
          obs_value o = 1 /\
          label "id" o = Some (IntValue (Light_ID l)) /\
          label "on" o = Some (BoolValue (On (Light_State l)))
  | brightness_batch lights groups =>
      forall i l, nth_error lights i = Some l ->
        exists o, nth_error (recorder b []) i = Some o /\
          obs_value o = Bri (Light_State l) /\
          label "id" o = Some (IntValue (Light_ID l)) /\
          label "on" o = Some (BoolValue (On (Light_State l)))
  | new_light_batch v =>
      forall i l, nth_error (NewLight_Lights v) i = Some l ->
        exists o, nth_error (recorder b []) i = Some o /\
          obs_value o = 1 /\
          label "name" o = Some (StringValue l)
  | group_batch groups =>
      forall i g, nth_error groups i = Some g ->
        exists o, nth_error (recorder b []) i = Some o /\
          obs_value o = 1 /\
          label "id" o = Some (IntValue (Group_ID g)) /\
          label "on" o = Some (BoolValue (On (Group_State g)))
  | sensor_batch sensors =>
      forall i s, nth_error sensors i = Some s ->
        exists o, nth_error (recorder b []) i = Some o /\
          obs_value o = 1 /\
          label "id" o = Some (IntValue (Sensor_ID s))
  end.
Proof.
  intros Hne. split; [now apply recorder_length|].
  destruct b as [lights groups|lights groups|[names lastScan]|groups|sensors];
    cbn [recorder size NewLight_Lights] in *.
  - intros i l H. eexists. split; [exact (lightObserver_nth _ groups _ _ H)|].
    repeat split.
  - intros i l H. eexists. split; [exact (lightBrightnessObserver_nth _ groups _ _ H)|].
    repeat split.
  - intros i l H. destruct names as [|n0 names]; [contradiction|].
    rewrite newLightObserver_cons. cbn [app]. rewrite nth_error_map, H.
    eexists. split; [reflexivity|]. repeat split.
  - intros i g H. destruct groups as [|g0 groups]; [contradiction|].
    rewrite groupObserver_cons. cbn [app]. rewrite nth_error_map, H.
    eexists. split; [reflexivity|]. repeat split.
  - intros i s H. destruct sensors as [|s0 sensors]; [contradiction|].
    rewrite sensorObserver_cons. cbn [app]. rewrite nth_error_map, H.
    eexists. split; [reflexivity|]. repeat split.
Qed.

Lemma one_observation_per_entity_witness :
  List.length (recorder (brightness_batch sample_lights [group_A]) []) = 3%nat /\
  forall i l, nth_error sample_lights i = Some l ->
    exists o,
      nth_error (recorder (brightness_batch sample_lights [group_A]) []) i = Some o /\
      obs_value o = Bri (Light_State l) /\
      label "id" o = Some (IntValue (Light_ID l)) /\
      label "on" o = Some (BoolValue (On (Light_State l))).
Proof.
  apply (one_observation_per_entity (brightness_batch sample_lights [group_A])).
  discriminate.
Defined.

(** C7.  The observation of a light, in the light and in the brightness
    family alike, carries a group label.  When some fetched group lists the
    light's id, the label is the name of a fetched group that lists it, so it
    is that group's name whenever the groups listing the id agree on the
    name; when no fetched group lists it, the label is the empty string. *)
Theorem group_label_resolved (lights : list Light) (groups : lightGroups)
    (i : nat) (l : Light) :
  nth_error lights i = Some l ->
  exists o b : Observation,
    nth_error (lightObserver lights groups []) i = Some o /\
    nth_error (lightBrightnessObserver lights groups []) i = Some b /\
    label "group" b = label "group" o /\
    ((exists g, In g groups /\ member (Light_ID l) g) ->
     exists g, In g groups /\ member (Light_ID l) g /\
       label "group" o = Some (StringValue (Group_Name g))) /\
    (forall g, In g groups -> member (Light_ID l) g ->
       (forall g', In g' groups -> member (Light_ID l) g' ->
          Group_Name g' = Group_Name g) ->
       label "group" o = Some (StringValue (Group_Name g))) /\
    ((forall g, In g groups -> ~ member (Light_ID l) g) ->
     label "group" o = Some (StringValue "")).
Proof.
  intros H.
  exists (mkObservation 1
            [ attribute_Bool "on" (On (Light_State l));
              attribute_Int "id" (Light_ID l);
              attribute_String "group" (assignedGroup groups l) ]),
         (mkObservation (Bri (Light_State l))
            [ attribute_Bool "on" (On (Light_State l));
              attribute_Int "id" (Light_ID l);
              attribute_String "group" (assignedGroup groups l) ]).
  split; [now apply lightObserver_nth|].
  split; [now apply lightBrightnessObserver_nth|].
  split; [reflexivity|].
  unfold label; cbn [obs_labels lookup_label attribute_Bool attribute_Int
                     attribute_String Key Val String.eqb Ascii.eqb Bool.eqb].
  unfold assignedGroup.
  destruct (lightExists groups (Light_ID l)) as [g0|] eqn:E.
  - destruct (lightExists_Some _ _ _ E) as [Hin Hm].
    split; [|split].
    + intros _. now exists g0.
    + intros g Hg Hmg Hsame. now rewrite (Hsame g0 Hin Hm).
    + intros Hnone. now destruct (Hnone g0 Hin).
  - pose proof (proj1 (lightExists_None _ _) E) as Hnone.
    split; [|split].
    + intros [g [Hin Hm]]. now destruct (Hnone g Hin).
    + intros g Hg Hmg _. now destruct (Hnone g Hg).
    + reflexivity.
Qed.

Lemma group_label_resolved_witness :
  exists o b : Observation,
    nth_error (lightObserver sample_lights [group_A] []) 0 = Some o /\
    nth_error (lightBrightnessObserver sample_lights [group_A] []) 0 = Some b /\
    label "group" b = label "group" o /\
    ((exists g, In g [group_A] /\ member 1 g) ->
     exists g, In g [group_A] /\ member 1 g /\
       label "group" o = Some (StringValue (Group_Name g))) /\
    (forall g, In g [group_A] -> member 1 g ->
       (forall g', In g' [group_A] -> member 1 g' ->
          Group_Name g' = Group_Name g) ->
       label "group" o = Some (StringValue (Group_Name g))) /\
    ((forall g, In g [group_A] -> ~ member 1 g) ->
     label "group" o = Some (StringValue "")).
Proof.
  apply (group_label_resolved sample_lights [group_A] 0
           (mkLight (mkState true 254) 1)).
  reflexivity.
Defined.

(** C8.  What the recorder appends does not depend on what the observer
    result holds already, so every evaluation on the same batch records the
    same sequence; and on a batch that is not empty the sequence follows the
    input: the identifiers of the observations are those of the entities, in
    the order of the batch. *)
Theorem recorder_deterministic (b : batch) (res : Int64ObserverResult) :
  recorder b res = res ++ recorder b [] /\
  recorder b (recorder b res) = res ++ recorder b [] ++ recorder b [] /\
  (size b <> 0%nat -> map (label (tag_key b)) (recorder b []) = tags b).
Proof.
  split; [apply recorder_appends|].
  split.
  - rewrite (recorder_appends b (recorder b res)), (recorder_appends b res).
    now rewrite <- app_assoc.
  - destruct b as [lights groups|lights groups|[names lastScan]|groups|sensors];
      cbn [recorder size tag_key tags NewLight_Lights]; intros Hne.
    + destruct lights; [contradiction|].
      rewrite lightObserver_cons. cbn [app]. rewrite map_map.
      apply map_ext. reflexivity.
    + destruct lights; [contradiction|].
      rewrite lightBrightnessObserver_cons. cbn [app]. rewrite map_map.
      apply map_ext. reflexivity.
    + destruct names; [contradiction|].
      rewrite newLightObserver_cons. cbn [app]. rewrite map_map.
      apply map_ext. reflexivity.
    + destruct groups; [contradiction|].
      rewrite groupObserver_cons. cbn [app]. rewrite map_map.
      apply map_ext. reflexivity.
    + destruct sensors; [contradiction|].
      rewrite sensorObserver_cons. cbn [app]. rewrite map_map.
      apply map_ext. reflexivity.
Qed.

Lemma recorder_deterministic_witness :
  map (label "id") (recorder (light_batch sample_lights [group_A]) [])
  = [Some (IntValue 1); Some (IntValue 2); Some (IntValue 3)].
Proof.
  apply (proj2 (proj2 (recorder_deterministic
                         (light_batch sample_lights [group_A]) []))).
  discriminate.
Defined.

(** C10.  When several fetched groups list a light's id, the group label of
    its observations is the name of the first of them in fetch order: the
    lookup returns the first group that lists the id. *)
Theorem first_matching_group_wins (lights : list Light) (groups : lightGroups)
    (i : nat) (l : Light) (pre post : lightGroups) (g : lightGroup) :
  nth_error lights i = Some l ->
  groups = pre ++ g :: post ->
  (forall g', In g' pre -> ~ member (Light_ID l) g') ->
  member (Light_ID l) g ->
  lightExists groups (Light_ID l) = Some g /\
  exists o b : Observation,
    nth_error (lightObserver lights groups []) i = Some o /\
    nth_error (lightBrightnessObserver lights groups []) i = Some b /\
    label "group" o = Some (StringValue (Group_Name g)) /\
    label "group" b = Some (StringValue (Group_Name g)).
Proof.
  intros H -> Hpre Hg.
  pose proof (lightExists_first pre post g (Light_ID l) Hpre Hg) as E.
  split; [exact E|].
  eexists. eexists.
  split; [exact (lightObserver_nth _ _ _ _ H)|].
  split; [exact (lightBrightnessObserver_nth _ _ _ _ H)|].
  unfold label; cbn [obs_labels lookup_label attribute_Bool attribute_Int
                     attribute_String Key Val String.eqb Ascii.eqb Bool.eqb].
  unfold assignedGroup. rewrite E. split; reflexivity.
Qed.

Lemma first_matching_group_wins_witness :
  lightExists [kitchen; living_room; upstairs] 1 = Some living_room /\
  exists o b : Observation,
    nth_error (lightObserver sample_lights [kitchen; living_room; upstairs] []) 0
      = Some o /\
    nth_error (lightBrightnessObserver sample_lights
                 [kitchen; living_room; upstairs] []) 0 = Some b /\
    label "group" o = Some (StringValue "Living room") /\
    label "group" b = Some (StringValue "Living room").
Proof.
  apply (first_matching_group_wins sample_lights
           [kitchen; living_room; upstairs] 0
           (mkLight (mkState true 254) 1) [kitchen] [upstairs] living_room).
  - reflexivity.
  - reflexivity.
  - intros g' [<-|[]] [H|[H|[]]]; discriminate H.
  - right. left. reflexivity.
Defined.

(** ** The collection jobs *)

Section Jobs.

Lemma to_lightGroups_id_from (hueGroups : list Group) (acc : lightGroups) :
  fold_left (fun groups group => groups ++ [group]) hueGroups acc
  = acc ++ hueGroups.
Proof.
  revert acc. induction hueGroups as [|g rest IH]; intros acc; simpl.
  - now rewrite app_nil_r.
  - rewrite IH, <- app_assoc. reflexivity.
Qed.

Lemma to_lightGroups_id (hueGroups : list Group) :
  to_lightGroups hueGroups = hueGroups.
Proof. apply to_lightGroups_id_from. Qed.

(** A refused registration ends the job at once: the error comes back
    wrapped, and no later family is tried. *)
Lemma lights_registration_failure (w : World) (gs : list Group)
    (ls : list Light) (err : error) :
  GetGroupsContext (hue w) = Ok gs ->
  GetLightsContext (hue w) = Ok ls ->
  (meter w "light" = Some err ->
     returned (lights_Collect w [])
       = Some (Wrapped "failed to collect light count" err) /\
     attempted (fst (lights_Collect w [])) = ["light"]) /\
  (meter w "light" = None -> meter w "light_brightness" = Some err ->
     returned (lights_Collect w [])
       = Some (Wrapped "failed to collect light brightness" err) /\
     attempted (fst (lights_Collect w [])) = ["light"; "light_brightness"]) /\
  (forall nl, meter w "light" = None -> meter w "light_brightness" = None ->
     GetNewLightsContext (hue w) = Ok nl -> meter w "new_light" = Some err ->
     returned (lights_Collect w [])
       = Some (Wrapped "failed to collect new light count" err) /\
     attempted (fst (lights_Collect w []))
       = ["light"; "light_brightness"; "new_light"]).
Proof.
  intros Hg Hl.
  unfold lights_Collect, returned, bind, defer, emit, register, log_Info,
    log_Error, fail, ret.
  rewrite Hg, Hl. cbn [app fst snd].
  split; [|split].
  - intros ->. split; reflexivity.
  - intros -> ->. split; reflexivity.
  - intros nl -> -> -> ->. split; reflexivity.
Qed.

Lemma groups_registration_failure (w : World) (gs : list Group) (err : error) :
  GetGroupsContext (hue w) = Ok gs ->
  meter w "group" = Some err ->
  returned (groups_Collect w [])
    = Some (Wrapped "failed to collect group count" err).
Proof.
  intros Hg Hm.
  unfold groups_Collect, returned, bind, defer, emit, register, log_Info,
    log_Error, fail, ret.
  rewrite Hg. cbn [app fst snd]. rewrite Hm. reflexivity.
Qed.

Lemma sensors_registration_failure (w : World) (ss : list Sensor) (err : error) :
  GetSensorsContext (hue w) = Ok ss ->
  meter w "sensors" = Some err ->
  returned (sensors_Collect w [])
    = Some (Wrapped "failed to collect group count" err).
Proof.
  intros Hs Hm.
  unfold sensors_Collect, returned, bind, defer, emit, register, log_Info,
    log_Error, fail, ret.
  rewrite Hs. cbn [app fst snd]. rewrite Hm. reflexivity.
Qed.

End Jobs.

(** C2, as the code has it.  A failed fetch of the lights job ends its cycle
    with that very error.  The groups and the lights fetch come before every
    registration: when one of them fails no gauge is registered.  The
    new-lights fetch comes after the light and the light_brightness gauge
    were registered: when it fails these two stay registered and only the
    new_light gauge is not. *)
Theorem lights_fetch_failure (w : World) (err : error) :
  (GetGroupsContext (hue w) = Err err ->
     returned (lights_Collect w []) = Some err /\
     attempted (fst (lights_Collect w [])) = []) /\
  (forall gs, GetGroupsContext (hue w) = Ok gs ->
     GetLightsContext (hue w) = Err err ->
     returned (lights_Collect w []) = Some err /\
     attempted (fst (lights_Collect w [])) = []) /\
  (forall gs ls, GetGroupsContext (hue w) = Ok gs ->
     GetLightsContext (hue w) = Ok ls ->
     meter w "light" = None -> meter w "light_brightness" = None ->
     GetNewLightsContext (hue w) = Err err ->
     returned (lights_Collect w []) = Some err /\
     attempted (fst (lights_Collect w [])) = ["light"; "light_brightness"] /\
     registered (fst (lights_Collect w [])) = ["light"; "light_brightness"]).
Proof.
  unfold lights_Collect, returned, bind, defer, emit, register, log_Info,
    log_Error, fail, ret.
  split; [|split].
  - intros ->. split; reflexivity.
  - intros gs -> ->. split; reflexivity.
  - intros gs ls -> -> -> -> ->. repeat split.
Qed.

Lemma lights_fetch_failure_witness :
  returned (lights_Collect (mkWorld bridge_new_lights_down meter_accepts) [])
    = Some (External "new lights: timeout") /\
  attempted (fst (lights_Collect (mkWorld bridge_new_lights_down meter_accepts) []))
    = ["light"; "light_brightness"] /\
  registered (fst (lights_Collect (mkWorld bridge_new_lights_down meter_accepts) []))
    = ["light"; "light_brightness"].
Proof.
  apply (proj2 (proj2 (lights_fetch_failure
                         (mkWorld bridge_new_lights_down meter_accepts)
                         (External "new lights: timeout")))
           [group_A] sample_lights); reflexivity.
Defined.

(** C2, as stated, fails: with the new-lights fetch failing after the groups
    and lights fetches succeeded, the job returns the fetch error and yet two
    gauges of the same cycle are registered. *)
Lemma new_lights_failure_after_registration :
  GetNewLightsContext (hue (mkWorld bridge_new_lights_down meter_accepts))
    = Err (External "new lights: timeout") /\
  returned (lights_Collect (mkWorld bridge_new_lights_down meter_accepts) [])
    = Some (External "new lights: timeout") /\
  registered (fst (lights_Collect (mkWorld bridge_new_lights_down meter_accepts) []))
    = ["light"; "light_brightness"] /\
  ~ (forall w err, GetNewLightsContext (hue w) = Err err ->
       registered (fst (lights_Collect w [])) = []).
Proof.
  repeat split.
  intros H.
  specialize (H (mkWorld bridge_new_lights_down meter_accepts)
                (External "new lights: timeout") eq_refl).
  discriminate H.
Qed.

(** C4, at the failing input.  When the meter refuses the sensors gauge the
    sensors job returns the error wrapped as a failure to collect the group
    count, which is word for word what the groups job returns when the
    group gauge is refused: the context names the group family. *)
Theorem sensors_wrap_names_group_family (b : BridgeAnswers)
    (gs : list Group) (ss : list Sensor) (err : error) :
  let w := mkWorld
             (mkBridgeAnswers (Ok gs) (GetLightsContext b)
                (GetNewLightsContext b) (Ok ss))
             (fun _ => Some err) in
  returned (sensors_Collect w [])
    = Some (Wrapped "failed to collect group count" err) /\
  option_map Error (returned (sensors_Collect w []))
    = Some ("failed to collect group count: " ++ Error err)%string /\
  returned (groups_Collect w []) = returned (sensors_Collect w []) /\
  attempted (fst (sensors_Collect w [])) = ["sensors"].
Proof.
  intros w. repeat split.
Qed.

(** ** Construction *)

Section Construction.

Lemma configure_eq (opts : list Option) :
  configure opts
  = apply_Options opts (mkGatherer None None (Second * 5) None []).
Proof. reflexivity. Qed.

Lemma apply_Option_Panics (g : Gatherer) (opt : Option) :
  apply_Option g opt = Panics <-> Option_panics opt = true.
Proof.
  destruct opt as [l|d|[ex|]|cfg]; cbn [apply_Option Option_panics];
    unfold time_NewTicker; cbn [MeterProvider_Meter];
    try (split; discriminate); try (split; reflexivity).
  destruct (d <=? 0); split; try discriminate; reflexivity.
Qed.

(** The options are applied to the end exactly when none of them panics. *)
Lemma apply_Options_Panics (opts : list Option) (g : Gatherer) :
  apply_Options opts g = Panics <-> existsb Option_panics opts = true.
Proof.
  revert g. induction opts as [|opt rest IH]; intros g; cbn [apply_Options existsb].
  - split; discriminate.
  - pose proof (apply_Option_Panics g opt) as Hopt.
    destruct (apply_Option g opt) as [|g'].
    + rewrite (proj1 Hopt eq_refl). split; reflexivity.
    + destruct (Option_panics opt).
      * discriminate (proj2 Hopt eq_refl).
      * apply IH.
Qed.

Lemma apply_Options_Returns (opts : list Option) (g : Gatherer) :
  existsb Option_panics opts = false ->
  exists g', apply_Options opts g = Returns g'.
Proof.
  intros H. destruct (apply_Options opts g) as [|g'] eqn:E; [|now exists g'].
  apply apply_Options_Panics in E. congruence.
Qed.

Lemma apply_Option_log (g g' : Gatherer) (opt : Option) :
  is_WithLogger opt = false ->
  apply_Option g opt = Returns g' ->
  Gatherer_log g' = Gatherer_log g.
Proof.
  destruct opt as [l|d|[ex|]|cfg]; cbn [apply_Option is_WithLogger];
    unfold time_NewTicker; cbn [MeterProvider_Meter]; try discriminate;
    try (destruct (d <=? 0); try discriminate);
    intros _ [= <-]; reflexivity.
Qed.

Lemma apply_Options_log (opts : list Option) (g g' : Gatherer) :
  forallb (fun opt => negb (is_WithLogger opt)) opts = true ->
  apply_Options opts g = Returns g' ->
  Gatherer_log g' = Gatherer_log g.
Proof.
  revert g. induction opts as [|opt opts IH]; intros g; cbn [apply_Options forallb].
  - now intros _ [= <-].
  - intros H. apply andb_prop in H as [H1 H2]. apply negb_true_iff in H1.
    destruct (apply_Option g opt) as [|g1] eqn:E; [discriminate|].
    intros H. rewrite (IH _ H2 H). exact (apply_Option_log _ _ _ H1 E).
Qed.

Lemma NewGatherer_Panics (opts : list Option) :
  NewGatherer opts = Panics <-> existsb Option_panics opts = true.
Proof.
  rewrite <- (apply_Options_Panics opts (mkGatherer None None (Second * 5) None [])).
  unfold NewGatherer. rewrite configure_eq.
  destruct (apply_Options opts _) as [|g]; [split; reflexivity|].
  destruct (valid g); split; discriminate.
Qed.

Lemma NewGatherer_sample :
  NewGatherer sample_options = Returns (Some sample_gatherer, None).
Proof. reflexivity. Qed.

Lemma Prometheus_apply_Option_Panics (g : Prometheus.Gatherer)
    (opt : Prometheus.Option) :
  Prometheus.apply_Option g opt = Panics <-> Prometheus.Option_panics opt = true.
Proof.
  destruct opt as [l|d|[ex|]|cfg];
    cbn [Prometheus.apply_Option Prometheus.Option_panics];
    unfold time_NewTicker;
    cbn [Prometheus.Exporter_MeterProvider MeterProvider_Meter];
    try (split; discriminate); try (split; reflexivity).
  destruct (d <=? 0); split; try discriminate; reflexivity.
Qed.

Lemma Prometheus_apply_Options_Panics (opts : list Prometheus.Option)
    (g : Prometheus.Gatherer) :
  Prometheus.apply_Options opts g = Panics
  <-> existsb Prometheus.Option_panics opts = true.
Proof.
  revert g. induction opts as [|opt rest IH]; intros g;
    cbn [Prometheus.apply_Options existsb].
  - split; discriminate.
  - pose proof (Prometheus_apply_Option_Panics g opt) as Hopt.
    destruct (Prometheus.apply_Option g opt) as [|g'].
    + rewrite (proj1 Hopt eq_refl). split; reflexivity.
    + destruct (Prometheus.Option_panics opt).
      * discriminate (proj2 Hopt eq_refl).
      * apply IH.
Qed.

Lemma Prometheus_NewGatherer_Panics (opts : list Prometheus.Option) :
  Prometheus.NewGatherer opts = Panics
  <-> existsb Prometheus.Option_panics opts = true.
Proof.
  rewrite <- (Prometheus_apply_Options_Panics opts
                (Prometheus.mkGatherer None None None (Second * 5) None [])).
  unfold Prometheus.NewGatherer.
  change (Prometheus.configure opts)
    with (Prometheus.apply_Options opts
            (Prometheus.mkGatherer None None None (Second * 5) None [])).
  destruct (Prometheus.apply_Options opts _) as [|g]; [split; reflexivity|].
  destruct (Prometheus.valid g); split; discriminate.
Qed.

End Construction.

(** C5, as the code has it.  Applying an option may panic: [WithTicker] with
    a period that is not positive, [WithExporter] with nil; then
    [NewGatherer] panics, before anything is checked, and otherwise it
    returns.  When it returns it has checked the logger and nothing else.
    Without a logger (no [WithLogger] among the options, or a nil one last)
    it returns [ErrInvalidLogger] and no collector; with a logger it returns
    a collector and no error, whether or not a meter or a bridge client was
    supplied.  It never returns an error together with a collector, so after
    a failed construction there is nothing to run.  The variant that holds
    the Prometheus exporter panics on the same options, and when it returns
    it also returns [ErrInvalidExporter] when the logger is there and the
    exporter is not. *)
Theorem NewGatherer_checks_the_logger (opts : list Option) :
  (NewGatherer opts = Panics <-> existsb Option_panics opts = true) /\
  (existsb Option_panics opts = false ->
   forallb (fun opt => negb (is_WithLogger opt)) opts = true ->
     NewGatherer opts = Returns (None, Some ErrInvalidLogger)) /\
  (forall g0, configure opts = Returns g0 -> Gatherer_log g0 = None ->
     NewGatherer opts = Returns (None, Some ErrInvalidLogger)) /\
  (forall g0 l, configure opts = Returns g0 -> Gatherer_log g0 = Some l ->
     exists g, NewGatherer opts = Returns (Some g, None) /\
       Gatherer_log g = Some l /\
       Gatherer_meter g = Gatherer_meter g0 /\
       Gatherer_hue g = Gatherer_hue g0 /\
       List.length (Gatherer_jobs g) = 3%nat) /\
  (forall r, NewGatherer opts = Returns r -> snd r <> None -> fst r = None) /\
  (forall popts : list Prometheus.Option,
     (Prometheus.NewGatherer popts = Panics
      <-> existsb Prometheus.Option_panics popts = true) /\
     (forall g0, Prometheus.configure popts = Returns g0 ->
        Prometheus.Gatherer_log g0 = None ->
        Prometheus.NewGatherer popts = Returns (None, Some ErrInvalidLogger)) /\
     (forall g0, Prometheus.configure popts = Returns g0 ->
        Prometheus.Gatherer_log g0 <> None ->
        Prometheus.Gatherer_exporter g0 = None ->
        Prometheus.NewGatherer popts = Returns (None, Some ErrInvalidExporter)) /\
     (forall r, Prometheus.NewGatherer popts = Returns r ->
        snd r <> None -> fst r = None)).
Proof.
  assert (Hnil : forall g0, configure opts = Returns g0 ->
                 Gatherer_log g0 = None ->
                 NewGatherer opts = Returns (None, Some ErrInvalidLogger)).
  { intros g0 Hc H. unfold NewGatherer, valid. now rewrite Hc, H. }
  split; [apply NewGatherer_Panics|].
  split; [|split; [exact Hnil|split; [|split]]].
  - intros Hsafe Hnone.
    destruct (apply_Options_Returns opts
                (mkGatherer None None (Second * 5) None []) Hsafe) as [g0 Hg0].
    apply (Hnil g0); [now rewrite configure_eq|].
    now rewrite (apply_Options_log _ _ _ Hnone Hg0).
  - intros g0 l Hc H. unfold NewGatherer, valid. rewrite Hc, H.
    eexists. split; [reflexivity|]. repeat split.
  - intros r. unfold NewGatherer, valid.
    destruct (configure opts) as [|g0]; [discriminate|].
    destruct (Gatherer_log g0); intros [= <-]; cbn [fst snd];
      [intros H; now destruct H|reflexivity].
  - intros popts. split; [apply Prometheus_NewGatherer_Panics|].
    unfold Prometheus.NewGatherer, Prometheus.valid.
    split; [|split].
    + intros g0 -> ->. reflexivity.
    + intros g0 -> Hlog ->.
      destruct (Prometheus.Gatherer_log g0); [reflexivity|now destruct Hlog].
    + intros r. destruct (Prometheus.configure popts) as [|g0]; [discriminate|].
      destruct (Prometheus.Gatherer_log g0);
        [destruct (Prometheus.Gatherer_exporter g0)|];
        intros [= <-]; cbn [fst snd]; try reflexivity.
      intros H; now destruct H.
Qed.

Lemma NewGatherer_checks_the_logger_witness :
  NewGatherer [WithExporter (Some (mkMeterProvider "global"));
               WithTicker (Second * 30);
               WithHueConfig (mkHueConfig "192.168.1.2" "user")]
  = Returns (None, Some ErrInvalidLogger).
Proof.
  apply (proj1 (proj2 (NewGatherer_checks_the_logger
                         [WithExporter (Some (mkMeterProvider "global"));
                          WithTicker (Second * 30);
                          WithHueConfig (mkHueConfig "192.168.1.2" "user")])));
    reflexivity.
Defined.

(** C5, as stated, fails.  With a logger and nothing else [NewGatherer]
    returns a collector and a nil error, although neither a meter nor a
    bridge client was supplied; and without a logger but with a ticker of
    period zero it panics instead of returning an error. *)
Lemma NewGatherer_accepts_missing_meter :
  (exists g : Gatherer,
     NewGatherer [WithLogger (Some (mkTraceLogger "zap"))]
     = Returns (Some g, None) /\
     Gatherer_meter g = None /\
     Gatherer_hue g = None /\
     Gatherer_jobs g
     = [ Lights (mkDeps (Some (mkTraceLogger "zap")) None None);
         Groups (mkDeps (Some (mkTraceLogger "zap")) None None);
         Sensors (mkDeps (Some (mkTraceLogger "zap")) None None) ]) /\
  NewGatherer [WithTicker 0] = Panics.
Proof.
  split; [|reflexivity].
  eexists. split; [reflexivity|]. repeat split.
Qed.

(** ** The loop *)

Section Loop.

Variable g : Gatherer.

Lemma select_Done_ctx_Err (s : select_env) (err : error) :
  select s = case_ctx_Done err -> ctx_Err s = Some err.
Proof.
  destruct s as [|e|e [|]]; simpl; try discriminate; now intros [= ->].
Qed.

(** The reports made before are kept, and do not matter to what follows. *)
Lemma Run_from_done (script : list cycle) (done : list cycle_report) :
  Run_from g script done
  = (done ++ fst (Run_from g script []), snd (Run_from g script [])).
Proof.
  revert done. induction script as [|c rest IH]; intros done; simpl.
  - now rewrite app_nil_r.
  - destruct (gather g c) as [reports tr].
    destruct (select (sel c)) as [|err]; simpl.
    + rewrite IH. rewrite (IH [_]). simpl. now rewrite <- app_assoc.
    + reflexivity.
Qed.

(** How a run ends is decided by the selects alone. *)
Lemma Run_from_outcome (script : list cycle) (done : list cycle_report) :
  snd (Run_from g script done) = outcome_of (map sel script).
Proof.
  revert done. induction script as [|c rest IH]; intros done; simpl.
  - reflexivity.
  - destruct (gather g c) as [reports tr].
    destruct (select (sel c)) as [|err]; [apply IH|reflexivity].
Qed.

Lemma launch_length (jobs : list CollectJob) (c : cycle) (i : nat) :
  List.length (launch jobs c i) = List.length jobs.
Proof.
  revert i. induction jobs as [|job rest IH]; intros i; simpl; [reflexivity|].
  now rewrite IH.
Qed.

(** Whatever the bridge and the meter answer, a job returns, and its span
    is ended. *)
Lemma Collect_finished (job : CollectJob) (w : World) :
  finished (mkJobReport (fst (Collect job w [])) (returned (Collect job w []))).
Proof.
  unfold finished. cbn [job_trace].
  destruct job as [d|d|d]; cbn [Collect].
  - exists "lights.Collect".
    unfold lights_Collect, bind, defer, emit, register, log_Info, log_Error,
      fail, ret.
    destruct (GetGroupsContext (hue w)); [|split; reflexivity].
    destruct (GetLightsContext (hue w)); [|split; reflexivity].
    cbn [app fst snd].
    destruct (meter w "light"); [split; reflexivity|].
    destruct (meter w "light_brightness"); [split; reflexivity|].
    destruct (GetNewLightsContext (hue w)); [|split; reflexivity].
    cbn [app fst snd].
    destruct (meter w "new_light"); split; reflexivity.
  - exists "groups.Collect".
    unfold groups_Collect, bind, defer, emit, register, log_Info, log_Error,
      fail, ret.
    destruct (GetGroupsContext (hue w)); [|split; reflexivity].
    cbn [app fst snd].
    destruct (meter w "group"); split; reflexivity.
  - exists "sensors.Collect".
    unfold sensors_Collect, bind, defer, emit, register, log_Info, log_Error,
      fail, ret.
    destruct (GetSensorsContext (hue w)); [|split; reflexivity].
    cbn [app fst snd].
    destruct (meter w "sensors"); split; reflexivity.
Qed.

Lemma launch_finished (jobs : list CollectJob) (c : cycle) (i : nat) :
  Forall finished (launch jobs c i).
Proof.
  revert i. induction jobs as [|job rest IH]; intros i; simpl; constructor.
  - apply Collect_finished.
  - apply IH.
Qed.

(** [Wait] reports an error exactly when some job returned one, and then
    the error of one of the jobs. *)
Lemma Wait_loop_Some (reports : list job_report) (fin : nat -> nat) (i : nat)
    (best : option (nat * error)) :
  best <> None \/ Exists (fun r => job_err r <> None) reports ->
  exists err, Wait_loop reports fin i best = Some err.
Proof.
  revert i best. induction reports as [|r rest IH]; intros i best H; simpl.
  - destruct H as [H|H]; [|inversion H].
    destruct best as [[t e]|]; [now exists e|contradiction].
  - apply IH. destruct H as [H|H].
    + left. destruct (job_err r); [|exact H].
      destruct best as [[t e']|]; [|discriminate].
      destruct (fin i <? t)%nat; discriminate.
    + inversion H as [? ? Hr|? ? Hrest]; subst; [|now right].
      left. destruct (job_err r) as [e|]; [|contradiction].
      destruct best as [[t e']|]; [|discriminate].
      destruct (fin i <? t)%nat; discriminate.
Qed.

Lemma Wait_loop_origin (reports : list job_report) (fin : nat -> nat) (i : nat)
    (best : option (nat * error)) (err : error) :
  Wait_loop reports fin i best = Some err ->
  option_map snd best = Some err \/
  Exists (fun r => job_err r = Some err) reports.
Proof.
  revert i best. induction reports as [|r rest IH]; intros i best; simpl.
  - now left.
  - intros H. apply IH in H as [H|H]; [|right; now apply Exists_cons_tl].
    destruct (job_err r) as [e|] eqn:E; [|now left].
    destruct best as [[t e']|].
    + destruct (fin i <? t)%nat; [|now left].
      right. apply Exists_cons_hd. simpl in H. congruence.
    + right. apply Exists_cons_hd. simpl in H. congruence.
Qed.

Lemma Wait_Some (reports : list job_report) (fin : nat -> nat) :
  Exists (fun r => job_err r <> None) reports ->
  exists err, Wait reports fin = Some err /\
              Exists (fun r => job_err r = Some err) reports.
Proof.
  intros H. destruct (Wait_loop_Some reports fin 0 None (or_intror H)) as [err E].
  exists err. split; [exact E|].
  destruct (Wait_loop_origin _ _ _ _ _ E) as [H'|H']; [discriminate|exact H'].
Qed.

Lemma outcome_of_Returned (script : list cycle) (err : error) :
  outcome_of (map sel script) = Returned err <->
  exists pre c post,
    script = pre ++ c :: post /\
    Forall (fun c' => select (sel c') = case_ticker) pre /\
    select (sel c) = case_ctx_Done err.
Proof.
  induction script as [|c0 rest IH]; simpl.
  - split; [discriminate|]. intros (pre & c & post & H & _).
    now destruct pre.
  - destruct (select (sel c0)) as [|e] eqn:E.
    + rewrite IH. split.
      * intros (pre & c & post & -> & Hpre & Hc).
        exists (c0 :: pre), c, post. repeat split; auto.
      * intros (pre & c & post & H & Hpre & Hc).
        destruct pre as [|p pre]; simpl in H; injection H as <- ->.
        -- congruence.
        -- inversion Hpre; subst. now exists pre, c, post.
    + split.
      * intros [= ->]. exists [], c0, rest. repeat split; auto.
      * intros (pre & c & post & H & Hpre & Hc).
        destruct pre as [|p pre]; simpl in H; injection H as <- ->.
        -- congruence.
        -- inversion Hpre; subst. congruence.
Qed.

End Loop.

(** C1.  A cycle after which the select takes the tick is followed by the
    next cycle, whether or not its jobs returned errors; when a job did, one
    of the jobs' errors is logged and nothing else changes.  How [Run] ends
    depends on the selects alone, not on any job: it returns exactly when
    some select takes the case of [ctx.Done()], the context being done then,
    and what it returns is the error of the context. *)
Theorem Run_ends_only_on_done_context (g : Gatherer) (script : list cycle) :
  (forall c rest, select (sel c) = case_ticker ->
     exists report : cycle_report,
       Run g (c :: rest) = (report :: fst (Run g rest), snd (Run g rest)) /\
       jobs_run report = launch (Gatherer_jobs g) c 0 /\
       (Exists (fun r => job_err r <> None) (jobs_run report) ->
        exists err,
          Exists (fun r => job_err r = Some err) (jobs_run report) /\
          loop_trace report
          = [ SpanStart span_Run;
              Log ErrorLevel "job failed to collect metrics" [zap_Error err];
              SpanEnd span_Run ])) /\
  (forall g' script', map sel script' = map sel script ->
     snd (Run g' script') = snd (Run g script)) /\
  (forall err, snd (Run g script) = Returned err <->
     exists pre c post,
       script = pre ++ c :: post /\
       Forall (fun c' => select (sel c') = case_ticker) pre /\
       select (sel c) = case_ctx_Done err /\
       ctx_Err (sel c) = Some err).
Proof.
  split; [|split].
  - intros c rest Hsel. unfold Run. cbn [Run_from]. unfold gather.
    rewrite Hsel, Run_from_done. cbn [app].
    eexists. split; [reflexivity|]. cbn [jobs_run loop_trace].
    split; [reflexivity|].
    intros Hfail.
    destruct (Wait_Some _ (finish c) Hfail) as (err & -> & Horigin).
    exists err. split; [exact Horigin|reflexivity].
  - intros g' script' Hsame. unfold Run.
    now rewrite !Run_from_outcome, Hsame.
  - intros err. unfold Run. rewrite Run_from_outcome, outcome_of_Returned.
    split.
    + intros (pre & c & post & H & Hpre & Hc).
      exists pre, c, post. repeat split; auto.
      now apply select_Done_ctx_Err.
    + intros (pre & c & post & H & Hpre & Hc & _).
      now exists pre, c, post.
Qed.

Lemma Run_ends_only_on_done_context_witness :
  (exists report : cycle_report,
     Run sample_gatherer
       [failing_cycle TickReady; quiet_cycle (DoneReady Canceled)]
     = (report :: fst (Run sample_gatherer [quiet_cycle (DoneReady Canceled)]),
        snd (Run sample_gatherer [quiet_cycle (DoneReady Canceled)])) /\
     exists err,
       loop_trace report
       = [ SpanStart span_Run;
           Log ErrorLevel "job failed to collect metrics" [zap_Error err];
           SpanEnd span_Run ]) /\
  snd (Run sample_gatherer
         [failing_cycle TickReady; quiet_cycle (DoneReady Canceled)])
  = Returned Canceled.
Proof.
  split.
  - destruct (proj1 (Run_ends_only_on_done_context sample_gatherer
                       [failing_cycle TickReady;
                        quiet_cycle (DoneReady Canceled)])
                (failing_cycle TickReady) [quiet_cycle (DoneReady Canceled)]
                eq_refl)
      as (report & HRun & Hjobs & Hlog).
    exists report. split; [exact HRun|].
    destruct Hlog as (err & _ & Htrace).
    + rewrite Hjobs. apply Exists_cons_hd. discriminate.
    + now exists err.
  - apply (proj2 (proj2 (Run_ends_only_on_done_context sample_gatherer
                           [failing_cycle TickReady;
                            quiet_cycle (DoneReady Canceled)]))).
    exists [failing_cycle TickReady], (quiet_cycle (DoneReady Canceled)), [].
    repeat split.
    repeat constructor.
Defined.

(** C9, as the code has it.  With a context that is done from the start,
    with error [err], [Run] still runs its first cycle in full: every job is
    launched and has returned before the first select.  If [Run] returns, it
    returns [err].  When the first select takes the case of [ctx.Done()], as
    it must when no tick is pending then, [Run] returns [err] after exactly
    one cycle. *)
Theorem Run_on_done_context (g : Gatherer) (c : cycle) (rest : list cycle)
    (err : error) :
  Forall (fun c' => ctx_Err (sel c') = Some err) (c :: rest) ->
  (exists (first : cycle_report) (others : list cycle_report),
     fst (Run g (c :: rest)) = first :: others /\
     jobs_run first = launch (Gatherer_jobs g) c 0 /\
     List.length (jobs_run first) = List.length (Gatherer_jobs g) /\
     Forall finished (jobs_run first)) /\
  (forall e, snd (Run g (c :: rest)) = Returned e -> e = err) /\
  (sel c <> BothReady err true ->
     List.length (fst (Run g (c :: rest))) = 1%nat /\
     snd (Run g (c :: rest)) = Returned err).
Proof.
  intros Hdone. split; [|split].
  - unfold Run. cbn [Run_from]. unfold gather.
    destruct (select (sel c)) as [|e].
    + rewrite Run_from_done. cbn [app fst].
      eexists. eexists. split; [reflexivity|]. cbn [jobs_run].
      split; [reflexivity|].
      split; [apply launch_length|apply launch_finished].
    + cbn [app fst].
      eexists. eexists. split; [reflexivity|]. cbn [jobs_run].
      split; [reflexivity|].
      split; [apply launch_length|apply launch_finished].
  - intros e He. unfold Run in He.
    rewrite Run_from_outcome in He. apply outcome_of_Returned in He.
    destruct He as (pre & c' & post & Hscript & _ & Hctx).
    apply select_Done_ctx_Err in Hctx.
    rewrite Forall_forall in Hdone.
    assert (Hin : In c' (c :: rest)).
    { rewrite Hscript. apply in_or_app. right. now left. }
    specialize (Hdone c' Hin). congruence.
  - intros Hpick. inversion Hdone as [|? ? Hc _]; subst.
    unfold Run. cbn [Run_from]. unfold gather.
    destruct (sel c) as [|e|e [|]]; cbn [ctx_Err] in Hc;
      try discriminate; injection Hc as ->.
    + split; reflexivity.
    + now destruct Hpick.
    + split; reflexivity.
Qed.

Lemma Run_on_done_context_witness :
  List.length (fst (Run sample_gatherer
                      [failing_cycle (DoneReady Canceled);
                       failing_cycle (BothReady Canceled true)])) = 1%nat /\
  snd (Run sample_gatherer
         [failing_cycle (DoneReady Canceled);
          failing_cycle (BothReady Canceled true)]) = Returned Canceled.
Proof.
  apply (proj2 (proj2 (Run_on_done_context sample_gatherer
                         (failing_cycle (DoneReady Canceled))
                         [failing_cycle (BothReady Canceled true)] Canceled
                         ltac:(repeat constructor)))).
  discriminate.
Defined.

(** C9, as stated, fails: the context is done from the start, a tick is
    pending as well at the first select and the select takes it, so a second
    full cycle runs before [Run] returns the error of the context. *)
Lemma done_context_second_cycle :
  Forall (fun c => ctx_Err (sel c) = Some Canceled)
    [failing_cycle (BothReady Canceled true);
     failing_cycle (DoneReady Canceled)] /\
  List.length (fst (Run sample_gatherer
                      [failing_cycle (BothReady Canceled true);
                       failing_cycle (DoneReady Canceled)])) = 2%nat /\
  Forall (fun report => List.length (jobs_run report) = 3%nat)
    (fst (Run sample_gatherer
            [failing_cycle (BothReady Canceled true);
             failing_cycle (DoneReady Canceled)])) /\
  snd (Run sample_gatherer
         [failing_cycle (BothReady Canceled true);
          failing_cycle (DoneReady Canceled)]) = Returned Canceled.
Proof.
  split; [repeat constructor|].
  split; [reflexivity|].
  split; [repeat constructor|reflexivity].
Qed.

(** ** More on the collection jobs *)

Ltac unfold_job :=
  unfold Collect, lights_Collect, groups_Collect, sensors_Collect, returned,
    register, log_Info, log_Error;
  unfold bind, defer, emit, fail, ret.

(** One goal per way the bridge and the meter can answer the job. *)
Ltac job_cases w :=
  unfold_job;
  repeat first
    [ progress cbn [app fst snd]
    | match goal with
      | |- context [GetGroupsContext (hue w)] =>
          destruct (GetGroupsContext (hue w)) eqn:?
      | |- context [GetLightsContext (hue w)] =>
          destruct (GetLightsContext (hue w)) eqn:?
      | |- context [GetSensorsContext (hue w)] =>
          destruct (GetSensorsContext (hue w)) eqn:?
      | |- context [meter w "light"] => destruct (meter w "light") eqn:?
      | |- context [meter w "light_brightness"] =>
          destruct (meter w "light_brightness") eqn:?
      | |- context [GetNewLightsContext (hue w)] =>
          destruct (GetNewLightsContext (hue w)) eqn:?
      | |- context [meter w "new_light"] => destruct (meter w "new_light") eqn:?
      | |- context [meter w "group"] => destruct (meter w "group") eqn:?
      | |- context [meter w "sensors"] => destruct (meter w "sensors") eqn:?
      end ].

Section JobTraces.

Variable job : CollectJob.
Variable w : World.

(** What was tried, and what was accepted, is an initial part of the job's
    list of gauges. *)
Lemma attempted_prefix :
  exists k : nat, attempted (fst (Collect job w [])) = firstn k (families job).
Proof.
  destruct job; cbn [families]; job_cases w;
    first [ now exists 0%nat | now exists 1%nat | now exists 2%nat
          | now exists 3%nat ].
Qed.

Lemma registered_prefix :
  exists k : nat, registered (fst (Collect job w [])) = firstn k (families job).
Proof.
  destruct job; cbn [families]; job_cases w;
    first [ now exists 0%nat | now exists 1%nat | now exists 2%nat
          | now exists 3%nat ].
Qed.

End JobTraces.

(** X1.  A job tries its gauges in one fixed order and stops at the first
    refusal or failed fetch: the names it tried, and the names the meter
    accepted, are initial parts of its list of gauges, all accepted names
    were tried, and the job returns nil exactly when the meter accepted the
    whole list. *)
Theorem job_registers_in_order (job : CollectJob) (w : World) :
  (exists k : nat,
     attempted (fst (Collect job w [])) = firstn k (families job)) /\
  (exists k : nat,
     registered (fst (Collect job w [])) = firstn k (families job)) /\
  incl (registered (fst (Collect job w []))) (attempted (fst (Collect job w []))) /\
  (returned (Collect job w []) = None <->
   registered (fst (Collect job w [])) = families job).
Proof.
  split; [apply attempted_prefix|].
  split; [apply registered_prefix|].
  split.
  - destruct job; job_cases w; cbn [attempted registered];
      intros x Hx; repeat (destruct Hx as [<-|Hx]; [simpl; auto|]);
      now destruct Hx.
  - destruct job; cbn [families]; job_cases w;
      split; intros H; first [reflexivity | discriminate H].
Qed.

(** X2.  Whatever the bridge and the meter answer, a job starts its span
    once, as the first thing it does, and ends it once, as the last. *)
Theorem job_span_once (job : CollectJob) (w : World) :
  span_events (fst (Collect job w []))
  = [SpanStart (span_name job); SpanEnd (span_name job)] /\
  hd_error (fst (Collect job w [])) = Some (SpanStart (span_name job)) /\
  last (fst (Collect job w [])) (SpanStart (span_name job))
  = SpanEnd (span_name job).
Proof.
  destruct job; cbn [span_name]; job_cases w; repeat split.
Qed.

(** X3.  A job that returns nil makes no Error-level record.  A job that
    returns an error makes exactly one, carrying the error of the bridge or
    of the meter; what the job returns is that error itself or that error
    wrapped once. *)
Theorem job_error_logged_once (job : CollectJob) (w : World) :
  match returned (Collect job w []) with
  | None => error_records (fst (Collect job w [])) = []
  | Some err =>
      exists cause : error,
        error_records (fst (Collect job w [])) = [[zap_Error cause]] /\
        (err = cause \/ exists context, err = Wrapped context cause)
  end.
Proof.
  destruct job; job_cases w; cbn [error_records];
    first [ reflexivity
          | eexists; split; [reflexivity|]; left; reflexivity
          | eexists; split; [reflexivity|]; right; eexists; reflexivity ].
Qed.

(** X4.  The error a job returns has one of two origins.  Either a fetch of
    the bridge failed: then the job returns that error unchanged and every
    gauge it tried was accepted.  Or the meter refused the last gauge the job
    tried: then the job returns the meter's error wrapped. *)
Theorem job_error_origin (job : CollectJob) (w : World) (err : error) :
  returned (Collect job w []) = Some err ->
  (attempted (fst (Collect job w [])) = registered (fst (Collect job w [])) /\
   match job with
   | Lights _ =>
       GetGroupsContext (hue w) = Err err \/
       GetLightsContext (hue w) = Err err \/
       GetNewLightsContext (hue w) = Err err
   | Groups _ => GetGroupsContext (hue w) = Err err
   | Sensors _ => GetSensorsContext (hue w) = Err err
   end) \/
  (exists name context cause,
     attempted (fst (Collect job w []))
     = registered (fst (Collect job w [])) ++ [name] /\
     meter w name = Some cause /\
     err = Wrapped context cause).
Proof.
  destruct job; job_cases w; cbn [attempted registered];
    intros H; try discriminate H; injection H as <-;
    first [ left; split; [reflexivity|]; now auto
          | right; eexists; eexists; eexists;
            split; [reflexivity|]; split; [eassumption|reflexivity] ].
Qed.

Lemma job_error_origin_witness :
  (attempted (fst (Collect (Groups sample_deps)
                     (mkWorld bridge_down meter_accepts) []))
   = registered (fst (Collect (Groups sample_deps)
                        (mkWorld bridge_down meter_accepts) [])) /\
   GetGroupsContext (hue (mkWorld bridge_down meter_accepts))
   = Err (External "groups: timeout")) \/
  (exists name context cause,
     attempted (fst (Collect (Groups sample_deps)
                       (mkWorld bridge_down meter_accepts) []))
     = registered (fst (Collect (Groups sample_deps)
                          (mkWorld bridge_down meter_accepts) [])) ++ [name] /\
     meter (mkWorld bridge_down meter_accepts) name = Some cause /\
     External "groups: timeout" = Wrapped context cause).
Proof.
  apply (job_error_origin (Groups sample_deps)
           (mkWorld bridge_down meter_accepts) (External "groups: timeout")).
  reflexivity.
Defined.

Section Callbacks.

(** An observer appends one observation per entity, and one for an empty
    batch. *)
Lemma recorder_adds (b : batch) (res : Int64ObserverResult) :
  List.length (recorder b res) = (List.length res + Nat.max 1 (size b))%nat.
Proof.
  rewrite recorder_appends, length_app. f_equal.
  destruct (Nat.eq_dec (size b) 0) as [E|E].
  - rewrite E.
    destruct b as [lights groups|lights groups|[names lastScan]|groups|sensors];
      cbn [size NewLight_Lights] in E;
      apply length_zero_iff_nil in E; subst; reflexivity.
  - rewrite recorder_length by exact E. lia.
Qed.

End Callbacks.

(** X5.  Every callback a job hands to the meter is the observer of what the
    bridge answered to that same job: lights and groups for the light and
    light_brightness gauges, new lights for new_light, groups for group,
    sensors for sensors.  Run on any observer result, it appends one
    observation per fetched entity, and a single one when none was fetched,
    so a registered gauge never reports nothing. *)
Theorem callbacks_report_the_fetch (job : CollectJob) (w : World)
    (name : string) (callback : Int64ObserverFunc) :
  In (name, callback) (callbacks (fst (Collect job w []))) ->
  exists b : batch,
    fetched w name b /\
    (forall res, callback res = recorder b res) /\
    (forall res,
       List.length (callback res)
       = (List.length res + Nat.max 1 (size b))%nat).
Proof.
  assert (Hrec : forall b, fetched w name b ->
            (forall res, callback res = recorder b res) ->
            exists b : batch,
              fetched w name b /\
              (forall res, callback res = recorder b res) /\
              (forall res,
                 List.length (callback res)
                 = (List.length res + Nat.max 1 (size b))%nat)).
  { intros b Hb Hcb. exists b. split; [exact Hb|]. split; [exact Hcb|].
    intros res. rewrite Hcb. apply recorder_adds. }
  revert Hrec.
  destruct job; job_cases w; cbn [callbacks]; intros Hrec Hin;
    repeat (destruct Hin as [Hin|Hin];
            [injection Hin as <- <-|]); try now destruct Hin.
  all: rewrite ?to_lightGroups_id in *.
  all: first
    [ eapply (Hrec (light_batch _ _));
      [cbn [fetched]; repeat split; eassumption|reflexivity]
    | eapply (Hrec (brightness_batch _ _));
      [cbn [fetched]; repeat split; eassumption|reflexivity]
    | eapply (Hrec (new_light_batch _));
      [cbn [fetched]; repeat split; eassumption|reflexivity]
    | eapply (Hrec (group_batch _));
      [cbn [fetched]; repeat split; eassumption|reflexivity]
    | eapply (Hrec (sensor_batch _));
      [cbn [fetched]; repeat split; eassumption|reflexivity] ].
Qed.

Lemma callbacks_report_the_fetch_witness :
  exists b : batch,
    fetched (mkWorld bridge_up meter_accepts) "sensors" b /\
    (forall res, sensorObserver sample_sensors res = recorder b res) /\
    (forall res,
       List.length (sensorObserver sample_sensors res)
       = (List.length res + Nat.max 1 (size b))%nat).
Proof.
  apply (callbacks_report_the_fetch (Sensors sample_deps)
           (mkWorld bridge_up meter_accepts) "sensors"
           (sensorObserver sample_sensors)).
  left. reflexivity.
Defined.

Section Cycle.

Lemma NewGatherer_jobs (opts : list Option) (g : Gatherer) :
  NewGatherer opts = Returns (Some g, None) ->
  Gatherer_jobs g
  = [ Lights (mkDeps (Gatherer_log g) (Gatherer_meter g) (Gatherer_hue g));
      Groups (mkDeps (Gatherer_log g) (Gatherer_meter g) (Gatherer_hue g));
      Sensors (mkDeps (Gatherer_log g) (Gatherer_meter g) (Gatherer_hue g)) ].
Proof.
  unfold NewGatherer. destruct (configure opts) as [|g0]; [discriminate|].
  destruct (valid g0); [discriminate|].
  intros [= <-]. reflexivity.
Qed.

Lemma firstn_families_NoDup (d1 d2 d3 : deps) (k1 k2 k3 : nat) :
  NoDup (firstn k1 (families (Lights d1)) ++
         firstn k2 (families (Groups d2)) ++
         firstn k3 (families (Sensors d3))).
Proof.
  cbn [families].
  destruct k1 as [|[|[|k1]]]; destruct k2 as [|k2]; destruct k3 as [|k3];
    cbn [firstn app]; rewrite ?firstn_nil; cbn [app];
    repeat (constructor; [simpl; intuition discriminate|]); constructor.
Qed.

End Cycle.

(** X6.  Within one cycle of a Gatherer built by [NewGatherer] no gauge
    name is handed to the meter twice: each job tries only its own gauges,
    each at most once. *)
Theorem cycle_registers_each_gauge_once (opts : list Option) (g : Gatherer)
    (c : cycle) :
  NewGatherer opts = Returns (Some g, None) ->
  NoDup (List.concat (map (fun r => attempted (job_trace r))
                   (launch (Gatherer_jobs g) c 0))).
Proof.
  intros H. rewrite (NewGatherer_jobs _ _ H).
  cbn [launch map List.concat job_trace]. rewrite app_nil_r.
  set (d := mkDeps (Gatherer_log g) (Gatherer_meter g) (Gatherer_hue g)).
  destruct (attempted_prefix (Lights d) (world c 0)) as [k1 ->].
  destruct (attempted_prefix (Groups d) (world c 1)) as [k2 ->].
  destruct (attempted_prefix (Sensors d) (world c 2)) as [k3 ->].
  apply firstn_families_NoDup.
Qed.

Lemma cycle_registers_each_gauge_once_witness :
  NoDup (List.concat (map (fun r => attempted (job_trace r))
                   (launch (Gatherer_jobs sample_gatherer)
                      (quiet_cycle TickReady) 0))).
Proof.
  apply (cycle_registers_each_gauge_once sample_options sample_gatherer
           (quiet_cycle TickReady)).
  reflexivity.
Defined.

(** X7.  Every count the lights job writes into an Info-level record is the
    number of lights fetched; this holds for the record about new lights
    too, whose count is not the number of new lights.  A lights job that
    returns nil has written exactly three counts. *)
Theorem lights_job_counts_lights (d : deps) (w : World) (lights : list Light) :
  GetLightsContext (hue w) = Ok lights ->
  Forall (fun n => n = len lights)
    (info_counts (fst (Collect (Lights d) w []))) /\
  (returned (Collect (Lights d) w []) = None ->
   info_counts (fst (Collect (Lights d) w []))
   = [len lights; len lights; len lights]).
Proof.
  job_cases w; intros H; try discriminate H; injection H as <-;
    cbn [info_counts field_counts app];
    (split; [repeat constructor|intros H; first [reflexivity|discriminate H]]).
Qed.

Lemma lights_job_counts_lights_witness :
  info_counts (fst (Collect (Lights sample_deps)
                      (mkWorld bridge_up meter_accepts) []))
  = [3; 3; 3] /\
  len (NewLight_Lights (mkNewLight [] "none")) = 0.
Proof.
  split; [|reflexivity].
  apply (proj2 (lights_job_counts_lights sample_deps
                  (mkWorld bridge_up meter_accepts) sample_lights eq_refl)).
  reflexivity.
Defined.

(** ** More on the loop *)

Section LoopReports.

Variable g : Gatherer.

Lemma gather_eq (c : cycle) :
  gather g c
  = (launch (Gatherer_jobs g) c 0,
     SpanStart span_Run ::
     match Wait (launch (Gatherer_jobs g) c 0) (finish c) with
     | Some err =>
         [Log ErrorLevel "job failed to collect metrics" [zap_Error err]]
     | None => []
     end).
Proof.
  unfold gather. now destruct (Wait (launch (Gatherer_jobs g) c 0) (finish c)).
Qed.

Lemma Run_cons_tick (c : cycle) (rest : list cycle) :
  select (sel c) = case_ticker ->
  Run g (c :: rest)
  = (mkCycleReport (fst (gather g c)) (snd (gather g c) ++ [SpanEnd span_Run])
       :: fst (Run g rest),
     snd (Run g rest)).
Proof.
  intros H. unfold Run. cbn [Run_from].
  rewrite (surjective_pairing (gather g c)), H, Run_from_done. reflexivity.
Qed.

Lemma Run_cons_done (c : cycle) (rest : list cycle) (err : error) :
  select (sel c) = case_ctx_Done err ->
  Run g (c :: rest)
  = ([mkCycleReport (fst (gather g c))
        (snd (gather g c) ++
         [Log ErrorLevel "context was cancelled" [zap_Error err];
          SpanEnd span_Run])],
     Returned err).
Proof.
  intros H. unfold Run. cbn [Run_from].
  rewrite (surjective_pairing (gather g c)), H. reflexivity.
Qed.

(** What holds of the report of every single cycle, however it ends, holds
    of all reports of a run. *)
Lemma Run_reports_Forall (P : cycle_report -> Prop) (script : list cycle) :
  (forall c tail,
     In c script ->
     tail = [SpanEnd span_Run] \/
     (exists err,
        tail = [Log ErrorLevel "context was cancelled" [zap_Error err];
                SpanEnd span_Run]) ->
     P (mkCycleReport (fst (gather g c)) (snd (gather g c) ++ tail))) ->
  Forall P (fst (Run g script)).
Proof.
  induction script as [|c rest IH]; intros HP; [constructor|].
  destruct (select (sel c)) as [|err] eqn:E.
  - rewrite (Run_cons_tick c rest E). cbn [fst]. constructor.
    + apply HP; [now left|now left].
    + apply IH. intros c' tail Hin. apply HP. now right.
  - rewrite (Run_cons_done c rest err E). cbn [fst]. constructor; [|constructor].
    apply HP; [now left|right; now exists err].
Qed.

Lemma Wait_loop_None (reports : list job_report) (fin : nat -> nat) (i : nat)
    (best : option (nat * error)) :
  Wait_loop reports fin i best = None <->
  best = None /\ Forall (fun r => job_err r = None) reports.
Proof.
  revert i best. induction reports as [|r rest IH]; intros i best; simpl.
  - destruct best as [[t e]|]; simpl; split; try discriminate; auto.
    now intros [H _].
  - rewrite IH. destruct (job_err r) as [e|] eqn:E.
    + split.
      * intros [H _]. destruct best as [[t e']|]; [|discriminate].
        destruct (fin i <? t)%nat; discriminate.
      * intros [_ H]. inversion H; subst. congruence.
    + split.
      * intros [H1 H2]. split; [exact H1|]. now constructor.
      * intros [H1 H2]. inversion H2; subst. now split.
Qed.

Lemma Wait_None (reports : list job_report) (fin : nat -> nat) :
  Wait reports fin = None <-> Forall (fun r => job_err r = None) reports.
Proof.
  unfold Wait. rewrite Wait_loop_None. split; [now intros [_ H]|now split].
Qed.

Lemma Wait_origin (reports : list job_report) (fin : nat -> nat) (err : error) :
  Wait reports fin = Some err ->
  Exists (fun r => job_err r = Some err) reports.
Proof.
  intros H. destruct (Wait_loop_origin _ _ _ _ _ H) as [H'|H'];
    [discriminate|exact H'].
Qed.

End LoopReports.

(** X8.  Runs compose.  When [Run] is still running at the end of a script,
    running it on that script followed by a second one gives the reports of
    both, one after the other, and ends as the run on the second script
    does.  When [Run] returns on a script, whatever follows is never looked
    at: no cycle runs after the return. *)
Theorem Run_app (g : Gatherer) (s1 s2 : list cycle) :
  (snd (Run g s1) = Running ->
   Run g (s1 ++ s2)
   = (fst (Run g s1) ++ fst (Run g s2), snd (Run g s2))) /\
  (forall err, snd (Run g s1) = Returned err -> Run g (s1 ++ s2) = Run g s1).
Proof.
  induction s1 as [|c rest IH].
  - split; [intros _; apply surjective_pairing|discriminate].
  - cbn [app]. destruct (select (sel c)) as [|e] eqn:E.
    + rewrite !(Run_cons_tick g c _ E). cbn [fst snd]. split.
      * intros H. rewrite (proj1 IH H). reflexivity.
      * intros err H. rewrite (proj2 IH err H). reflexivity.
    + rewrite !(Run_cons_done g c _ e E). cbn [snd].
      split; [discriminate|reflexivity].
Qed.

Lemma Run_app_witness :
  Run sample_gatherer
    ([failing_cycle TickReady] ++ [quiet_cycle (DoneReady Canceled)])
  = (fst (Run sample_gatherer [failing_cycle TickReady]) ++
     fst (Run sample_gatherer [quiet_cycle (DoneReady Canceled)]),
     snd (Run sample_gatherer [quiet_cycle (DoneReady Canceled)])) /\
  Run sample_gatherer
    ([quiet_cycle (DoneReady Canceled)] ++ [failing_cycle TickReady])
  = Run sample_gatherer [quiet_cycle (DoneReady Canceled)].
Proof.
  split.
  - apply (proj1 (Run_app sample_gatherer [failing_cycle TickReady]
                    [quiet_cycle (DoneReady Canceled)])).
    reflexivity.
  - apply (proj2 (Run_app sample_gatherer [quiet_cycle (DoneReady Canceled)]
                    [failing_cycle TickReady]) Canceled).
    reflexivity.
Defined.



(** X10.  In every cycle the loop records that a job failed exactly when
    some job of that cycle returned an error, and then once, with the error
    one of the jobs of that cycle returned. *)
Theorem job_failure_logged_iff (g : Gatherer) (script : list cycle) :
  Forall (fun report =>
            (job_failure_records report = [] <->
             Forall (fun r => job_err r = None) (jobs_run report)) /\
            (List.length (job_failure_records report) <= 1)%nat /\
            (forall fields, In fields (job_failure_records report) ->
               exists err, fields = [zap_Error err] /\
                 Exists (fun r => job_err r = Some err) (jobs_run report)))
    (fst (Run g script)).
Proof.
  apply Run_reports_Forall. intros c tail _ Htail.
  rewrite gather_eq. unfold job_failure_records.
  cbn [fst snd jobs_run loop_trace].
  destruct (Wait (launch (Gatherer_jobs g) c 0) (finish c)) as [err|] eqn:E.
  - pose proof (Wait_origin _ _ _ E) as Horigin.
    assert (Hnot : ~ Forall (fun r => job_err r = None)
                       (launch (Gatherer_jobs g) c 0)).
    { intros H. apply Wait_None with (fin := finish c) in H. congruence. }
    destruct Htail as [->|[err' ->]]; cbn;
      (split; [split; [discriminate|intros H; now destruct Hnot]|]);
      (split; [lia|]);
      intros fields [<-|[]]; now exists err.
  - apply Wait_None in E.
    destruct Htail as [->|[err' ->]]; cbn;
      (split; [split; [intros _; exact E|reflexivity]|]);
      (split; [lia|]); intros fields [].
Qed.

(** X11.  When [Run] returns, the loop's records of the last cycle end with
    the record that the context was cancelled, carrying the error [Run]
    returns, followed by the end of the span.  Every other Error-level
    record of the loop, in the last cycle and in every earlier one, is a
    record of a failed job; so is every Error-level record of a run that
    has not returned. *)
Theorem cancellation_logged_last (g : Gatherer) (script : list cycle) :
  match snd (Run g script) with
  | Returned err =>
      exists (earlier : list cycle_report) (last : cycle_report)
             (before : trace),
        fst (Run g script) = earlier ++ [last] /\
        loop_trace last
        = before ++ [Log ErrorLevel "context was cancelled" [zap_Error err];
                     SpanEnd span_Run] /\
        (forall msg fields, In (Log ErrorLevel msg fields) before ->
           msg = "job failed to collect metrics") /\
        Forall (fun report => forall msg fields,
                  In (Log ErrorLevel msg fields) (loop_trace report) ->
                  msg = "job failed to collect metrics") earlier
  | Running =>
      Forall (fun report => forall msg fields,
                In (Log ErrorLevel msg fields) (loop_trace report) ->
                msg = "job failed to collect metrics") (fst (Run g script))
  end.
Proof.
  assert (Hbefore : forall c msg fields,
            In (Log ErrorLevel msg fields) (snd (gather g c)) ->
            msg = "job failed to collect metrics").
  { intros c msg fields. rewrite gather_eq. cbn [snd].
    destruct (Wait (launch (Gatherer_jobs g) c 0) (finish c)); cbn;
      intros H; repeat (destruct H as [H|H]; try discriminate H);
      try contradiction.
    now injection H as <- _. }
  assert (Hquiet : forall c msg fields,
            In (Log ErrorLevel msg fields)
              (snd (gather g c) ++ [SpanEnd span_Run]) ->
            msg = "job failed to collect metrics").
  { intros c msg fields H. apply in_app_or in H as [H|H].
    - exact (Hbefore c msg fields H).
    - destruct H as [H|[]]. discriminate H. }
  induction script as [|c rest IH]; [constructor|].
  destruct (select (sel c)) as [|e] eqn:E.
  - rewrite (Run_cons_tick g c rest E). cbn [fst snd].
    destruct (snd (Run g rest)) as [err|].
    + destruct IH as (earlier & last & before & -> & Hlast & Hb & Hearlier).
      exists (mkCycleReport (fst (gather g c))
                (snd (gather g c) ++ [SpanEnd span_Run]) :: earlier),
             last, before.
      split; [reflexivity|]. split; [exact Hlast|]. split; [exact Hb|].
      constructor; [apply Hquiet|exact Hearlier].
    + constructor; [apply Hquiet|exact IH].
  - rewrite (Run_cons_done g c rest e E). cbn [fst snd].
    exists [], (mkCycleReport (fst (gather g c))
                  (snd (gather g c) ++
                   [Log ErrorLevel "context was cancelled" [zap_Error e];
                    SpanEnd span_Run])),
           (snd (gather g c)).
    split; [reflexivity|]. split; [reflexivity|].
    split; [apply Hbefore|constructor].
Qed.

(** ** More on construction *)

Section Options.

Lemma apply_Options_app (before after : list Option) (g : Gatherer) :
  apply_Options (before ++ after) g
  = match apply_Options before g with
    | Panics => Panics
    | Returns g' => apply_Options after g'
    end.
Proof.
  revert g. induction before as [|opt rest IH]; intros g; [reflexivity|].
  cbn [app apply_Options]. destruct (apply_Option g opt); [reflexivity|apply IH].
Qed.

(** The logger the options leave depends on the logger before and on the
    [WithLogger] options, on nothing else. *)
Lemma apply_Options_log_filter (opts : list Option) (g g' g1 : Gatherer) :
  Gatherer_log g = Gatherer_log g' ->
  apply_Options opts g = Returns g1 ->
  exists g2,
    apply_Options (filter is_WithLogger opts) g' = Returns g2 /\
    Gatherer_log g2 = Gatherer_log g1.
Proof.
  revert g g'. induction opts as [|opt rest IH]; intros g g' Hlog.
  - cbn. intros [= <-]. now exists g'.
  - cbn [apply_Options filter].
    destruct (apply_Option g opt) as [|ga] eqn:E; [discriminate|].
    intros H. destruct (is_WithLogger opt) eqn:Eopt.
    + destruct opt as [l| | |]; try discriminate Eopt.
      cbn [apply_Options apply_Option]. cbn [apply_Option] in E.
      injection E as <-. eapply IH; [|exact H]. reflexivity.
    + apply (IH ga g'); [|exact H].
      now rewrite (apply_Option_log _ _ _ Eopt E).
Qed.

Lemma apply_Options_ticker (opts : list Option) (g g' : Gatherer) :
  forallb (fun opt => match opt with WithTicker _ => false | _ => true end)
    opts = true ->
  apply_Options opts g = Returns g' ->
  Gatherer_ticker g' = Gatherer_ticker g.
Proof.
  revert g. induction opts as [|opt rest IH]; intros g Hall.
  - now intros [= <-].
  - cbn [forallb] in Hall. apply andb_prop in Hall as [H1 H2].
    cbn [apply_Options]. destruct (apply_Option g opt) as [|ga] eqn:E;
      [discriminate|].
    intros H. rewrite (IH _ H2 H).
    destruct opt as [l|d|[ex|]|cfg]; try discriminate H1; cbn in E;
      try discriminate E; now injection E as <-.
Qed.

End Options.

(** X12.  Among option lists on which [NewGatherer] returns, whether it
    returns an error depends on the [WithLogger] options alone: dropping
    every other option changes nothing of the error.  Among several
    [WithLogger] options the last one decides: with a logger given last it
    returns a collector, with nil given last it returns [ErrInvalidLogger],
    whatever came before.  On an option list with an option that panics,
    [NewGatherer] panics whatever is added at the end. *)
Theorem NewGatherer_error_by_logger_options (opts : list Option) :
  (existsb Option_panics opts = false ->
   (exists r r',
      NewGatherer opts = Returns r /\
      NewGatherer (filter is_WithLogger opts) = Returns r' /\
      snd r = snd r') /\
   (forall l, exists g,
      NewGatherer (opts ++ [WithLogger (Some l)]) = Returns (Some g, None)) /\
   NewGatherer (opts ++ [WithLogger None])
   = Returns (None, Some ErrInvalidLogger)) /\
  (existsb Option_panics opts = true ->
   forall more, NewGatherer (opts ++ more) = Panics).
Proof.
  split.
  - intros Hsafe.
    destruct (apply_Options_Returns opts
                (mkGatherer None None (Second * 5) None []) Hsafe) as [g0 Hg0].
    split; [|split].
    + destruct (apply_Options_log_filter opts _ _ g0 eq_refl Hg0)
        as (g2 & Hg2 & Hlog).
      unfold NewGatherer, valid. rewrite !configure_eq, Hg0, Hg2, Hlog.
      destruct (Gatherer_log g0); eexists; eexists;
        (split; [reflexivity|]); split; reflexivity.
    + intros l. unfold NewGatherer, valid.
      rewrite configure_eq, apply_Options_app, Hg0. cbn.
      eexists. reflexivity.
    + unfold NewGatherer, valid.
      rewrite configure_eq, apply_Options_app, Hg0. reflexivity.
  - intros Hpanic more. apply NewGatherer_Panics.
    rewrite existsb_app, Hpanic. reflexivity.
Qed.

Lemma NewGatherer_error_by_logger_options_witness :
  (exists r r',
     NewGatherer [WithLogger None; WithTicker Second] = Returns r /\
     NewGatherer (filter is_WithLogger [WithLogger None; WithTicker Second])
     = Returns r' /\
     snd r = snd r') /\
  NewGatherer ([WithLogger (Some (mkTraceLogger "zap")); WithTicker 0] ++
               [WithLogger (Some (mkTraceLogger "zap"))]) = Panics.
Proof.
  split.
  - apply (proj1 (NewGatherer_error_by_logger_options
                    [WithLogger None; WithTicker Second])).
    reflexivity.
  - apply (proj2 (NewGatherer_error_by_logger_options
                    [WithLogger (Some (mkTraceLogger "zap")); WithTicker 0])).
    reflexivity.
Defined.

(** X13.  A collector [NewGatherer] returns holds the logger, meter, bridge
    and period the options left, and exactly three jobs, for lights, groups
    and sensors in this order, each holding the collector's own logger,
    meter and bridge.  The period is five seconds unless a [WithTicker]
    option was given, and then the one given last. *)
Theorem NewGatherer_wires_the_jobs (opts : list Option) (g : Gatherer) :
  NewGatherer opts = Returns (Some g, None) ->
  (exists g0,
     configure opts = Returns g0 /\
     Gatherer_log g = Gatherer_log g0 /\
     Gatherer_meter g = Gatherer_meter g0 /\
     Gatherer_hue g = Gatherer_hue g0 /\
     Gatherer_ticker g = Gatherer_ticker g0) /\
  Gatherer_jobs g
  = [ Lights (mkDeps (Gatherer_log g) (Gatherer_meter g) (Gatherer_hue g));
      Groups (mkDeps (Gatherer_log g) (Gatherer_meter g) (Gatherer_hue g));
      Sensors (mkDeps (Gatherer_log g) (Gatherer_meter g) (Gatherer_hue g)) ] /\
  (forallb (fun opt => match opt with WithTicker _ => false | _ => true end)
     opts = true ->
   Gatherer_ticker g = 5000000000) /\
  (forall before d after,
     opts = before ++ WithTicker d :: after ->
     forallb (fun opt => match opt with WithTicker _ => false | _ => true end)
       after = true ->
     Gatherer_ticker g = d).
Proof.
  intros H.
  unfold NewGatherer in H. destruct (configure opts) as [|g0] eqn:Ec;
    [discriminate|].
  destruct (valid g0); [discriminate|].
  injection H as <-.
  cbn [Gatherer_log Gatherer_meter Gatherer_hue Gatherer_ticker Gatherer_jobs].
  split; [exists g0; repeat split|].
  split; [reflexivity|].
  rewrite configure_eq in Ec.
  split.
  - intros Hall. now rewrite (apply_Options_ticker _ _ _ Hall Ec).
  - intros before d after -> Hafter.
    rewrite apply_Options_app in Ec.
    destruct (apply_Options before _) as [|gb]; [discriminate|].
    cbn [apply_Options apply_Option] in Ec. unfold time_NewTicker in Ec.
    destruct (d <=? 0); [discriminate|].
    now rewrite (apply_Options_ticker _ _ _ Hafter Ec).
Qed.

Lemma NewGatherer_wires_the_jobs_witness :
  Gatherer_ticker sample_gatherer = 5000000000 /\
  Gatherer_jobs sample_gatherer
  = [ Lights sample_deps; Groups sample_deps; Sensors sample_deps ].
Proof.
  destruct (NewGatherer_wires_the_jobs sample_options sample_gatherer eq_refl)
    as (_ & Hjobs & Hdefault & _).
  split; [apply Hdefault; reflexivity|exact Hjobs].
Defined.

Section PrometheusOptions.

(** No option of the exporter variant sets the exporter without the meter,
    or takes one of them away. *)
Lemma Prometheus_exporter_meter (popts : list Prometheus.Option)
    (g g' : Prometheus.Gatherer) :
  (Prometheus.Gatherer_exporter g = None <-> Prometheus.Gatherer_meter g = None) ->
  Prometheus.apply_Options popts g = Returns g' ->
  (Prometheus.Gatherer_exporter g' = None
   <-> Prometheus.Gatherer_meter g' = None).
Proof.
  revert g. induction popts as [|opt rest IH]; intros g H.
  - now intros [= <-].
  - cbn [Prometheus.apply_Options].
    destruct (Prometheus.apply_Option g opt) as [|ga] eqn:E; [discriminate|].
    apply IH.
    destruct opt as [l|d|[ex|]|cfg]; cbn in E; unfold time_NewTicker in E;
      try discriminate E;
      try (destruct (d <=? 0); [discriminate E|]);
      injection E as <-; cbn; try exact H.
    split; discriminate.
Qed.

End PrometheusOptions.

(** X14.  In the variant that holds the Prometheus exporter, construction
    returns a collector exactly when no option panics and the options left
    both a logger and an exporter; it panics exactly when an option does
    ([WithTicker] with a period that is not positive, [WithExporter] with
    nil).  A collector it returns always has a meter: the one option that
    sets the exporter sets the meter with it. *)
Theorem Prometheus_NewGatherer_success (popts : list Prometheus.Option) :
  ((exists g, Prometheus.NewGatherer popts = Returns (Some g, None)) <->
   exists g0,
     Prometheus.configure popts = Returns g0 /\
     Prometheus.Gatherer_log g0 <> None /\
     Prometheus.Gatherer_exporter g0 <> None) /\
  (Prometheus.NewGatherer popts = Panics
   <-> existsb Prometheus.Option_panics popts = true) /\
  (forall g, Prometheus.NewGatherer popts = Returns (Some g, None) ->
     Prometheus.Gatherer_log g <> None /\
     Prometheus.Gatherer_exporter g <> None /\
     Prometheus.Gatherer_meter g <> None /\
     List.length (Prometheus.Gatherer_jobs g) = 3%nat).
Proof.
  split; [|split; [apply Prometheus_NewGatherer_Panics|]].
  - unfold Prometheus.NewGatherer, Prometheus.valid.
    destruct (Prometheus.configure popts) as [|g0].
    + split; [intros [g H]; discriminate H|intros (g0 & H & _); discriminate H].
    + destruct (Prometheus.Gatherer_log g0) as [l|] eqn:El;
        [destruct (Prometheus.Gatherer_exporter g0) as [ex|] eqn:Ee|].
      * split; [intros _; exists g0; rewrite ?El, ?Ee; repeat split; discriminate
               |intros _; eexists; reflexivity].
      * split; [intros [g H]; discriminate H|].
        intros (g1 & [= <-] & _ & H). now destruct H.
      * split; [intros [g H]; discriminate H|].
        intros (g1 & [= <-] & H & _). now destruct H.
  - intros g H. unfold Prometheus.NewGatherer, Prometheus.valid in H.
    destruct (Prometheus.configure popts) as [|g0] eqn:Ec; [discriminate|].
    assert (Hinv : Prometheus.Gatherer_exporter g0 = None
                   <-> Prometheus.Gatherer_meter g0 = None).
    { apply (Prometheus_exporter_meter popts
               (Prometheus.mkGatherer None None None (Second * 5) None []));
        [simpl; tauto|exact Ec]. }
    destruct (Prometheus.Gatherer_log g0) as [l|] eqn:El; [|discriminate].
    destruct (Prometheus.Gatherer_exporter g0) as [ex|] eqn:Ee; [|discriminate].
    injection H as <-. cbn. rewrite ?El, ?Ee.
    repeat split; try discriminate.
    intros Hm. apply Hinv in Hm. discriminate Hm.
Qed.

Lemma Prometheus_NewGatherer_success_witness :
  Prometheus.Gatherer_meter
    (Prometheus.mkGatherer (Some (mkTraceLogger "zap"))
       (Some (Prometheus.mkExporter "prom"))
       (Some (mkMeter (mkMeterProvider "prom") "hue")) (Second * 5) None
       [ Lights (mkDeps (Some (mkTraceLogger "zap"))
                   (Some (mkMeter (mkMeterProvider "prom") "hue")) None);
         Groups (mkDeps (Some (mkTraceLogger "zap"))
                   (Some (mkMeter (mkMeterProvider "prom") "hue")) None);
         Sensors (mkDeps (Some (mkTraceLogger "zap"))
                    (Some (mkMeter (mkMeterProvider "prom") "hue")) None) ])
  <> None.
Proof.
  apply (proj2 (proj2 (Prometheus_NewGatherer_success
                  [ Prometheus.WithLogger (Some (mkTraceLogger "zap"));
                    Prometheus.WithExporter
                      (Some (Prometheus.mkExporter "prom")) ]))
           _ eq_refl).
Defined.

(** ** More on group membership *)

Section Membership.

Lemma to_int_not_nil (i : Z) :
  Z.to_int i <> Decimal.Pos Decimal.Nil /\ Z.to_int i <> Decimal.Neg Decimal.Nil.
Proof.
  destruct i as [|p|p]; simpl; split; try discriminate; intros [= H];
    now apply DecimalPos.Unsigned.to_uint_nonnil in H.
Qed.

(** Different ids have different decimal texts. *)
Lemma Itoa_inj (i j : Z) : Itoa i = Itoa j -> i = j.
Proof.
  unfold Itoa. intros H.
  apply DecimalZ.to_int_inj.
  destruct (to_int_not_nil i) as [Hi1 Hi2], (to_int_not_nil j) as [Hj1 Hj2].
  pose proof (NilZero.isi (Z.to_int i) Hi1 Hi2) as Ei.
  pose proof (NilZero.isi (Z.to_int j) Hj1 Hj2) as Ej.
  rewrite H in Ei. congruence.
Qed.

End Membership.

(** X15.  The membership test compares decimal texts, and this is exact:
    a group whose member list holds the decimal texts of the ids [ids] lists
    the light [id] exactly when [id] is one of [ids]; and over groups whose
    member lists are such texts the lookup returns nil exactly when no list
    of ids holds [id]. *)
Theorem membership_by_text_is_by_number (groups : lightGroups)
    (idss : list (list Z)) (id : Z) :
  Forall2 (fun g ids => Group_Lights g = map Itoa ids) groups idss ->
  Forall2 (fun g ids => lightGroup_lightExists g id = true <-> In id ids)
    groups idss /\
  (lightExists groups id = None <-> Forall (fun ids => ~ In id ids) idss).
Proof.
  assert (Hmem : forall g ids, Group_Lights g = map Itoa ids ->
                   (lightGroup_lightExists g id = true <-> In id ids)).
  { intros g ids Hg. rewrite lightGroup_lightExists_member.
    unfold member. rewrite Hg, in_map_iff. split.
    - intros (j & Hj & Hin). apply Itoa_inj in Hj. now subst.
    - intros Hin. now exists id. }
  induction 1 as [|g ids groups idss Hg Hrest [IH1 IH2]].
  - split; [constructor|]. split; [constructor|reflexivity].
  - split; [constructor; [now apply Hmem|exact IH1]|].
    cbn [lightExists]. pose proof (Hmem g ids Hg) as Hm.
    destruct (lightGroup_lightExists g id).
    + split; [discriminate|]. intros H. inversion H; subst.
      exfalso. now apply H2, Hm.
    + rewrite IH2. split.
      * intros H. constructor; [|exact H].
        intros Hin. apply Hm in Hin. discriminate Hin.
      * intros H. now inversion H.
Qed.

Lemma membership_by_text_is_by_number_witness :
  Forall2 (fun g ids => lightGroup_lightExists g 11 = true <-> In 11 ids)
    [kitchen; living_room] [[3; 11]; [2; 1]] /\
  (lightExists [kitchen; living_room] 11 = None
   <-> Forall (fun ids => ~ In 11 ids) [[3; 11]; [2; 1]]).
Proof.
  apply (membership_by_text_is_by_number [kitchen; living_room]
           [[3; 11]; [2; 1]] 11).
  repeat constructor.
Defined.

(** ** The observers of the exporter variant *)

Section ValueObserversFacts.

Lemma range_length {A : Type} (value : A -> Z) (labels : A -> list KeyValue)
    (xs : list A) (res : Int64ObserverResult) :
  List.length (range xs (fun x => Observe (value x) (labels x)) res)
  = (List.length res + List.length xs)%nat.
Proof. now rewrite range_Observe, length_app, length_map. Qed.

End ValueObserversFacts.

(** X16.  The observers of the exporter variant record one observation per
    entity and nothing at all for an empty batch.  On a batch that is not
    empty its sensor and new-light observers record what the present ones
    record; its brightness observer records the same values with the same
    id and on labels, without the group label. *)
Theorem value_observers_vs_gauge_observers (lights : list Light)
    (groups : lightGroups) (v : NewLight) (sensors : list Sensor)
    (res : Int64ObserverResult) :
  (List.length (ValueObservers.lightBrightnessObserver lights res)
   = (List.length res + List.length lights)%nat /\
   List.length (ValueObservers.newLightObserver v res)
   = (List.length res + List.length (NewLight_Lights v))%nat /\
   List.length (ValueObservers.sensorObserver sensors res)
   = (List.length res + List.length sensors)%nat) /\
  (ValueObservers.lightBrightnessObserver [] res = res /\
   ValueObservers.newLightObserver (mkNewLight [] (NewLight_LastScan v)) res
   = res /\
   ValueObservers.sensorObserver [] res = res) /\
  (sensors <> [] ->
   ValueObservers.sensorObserver sensors res = sensorObserver sensors res) /\
  (NewLight_Lights v <> [] ->
   ValueObservers.newLightObserver v res = newLightObserver v res) /\
  (lights <> [] ->
   map obs_value (ValueObservers.lightBrightnessObserver lights [])
   = map obs_value (lightBrightnessObserver lights groups []) /\
   map (label "id") (ValueObservers.lightBrightnessObserver lights [])
   = map (label "id") (lightBrightnessObserver lights groups []) /\
   map (label "on") (ValueObservers.lightBrightnessObserver lights [])
   = map (label "on") (lightBrightnessObserver lights groups []) /\
   Forall (fun o => label "group" o = None)
     (ValueObservers.lightBrightnessObserver lights [])).
Proof.
  split; [|split; [|split; [|split]]].
  - repeat split; apply range_length.
  - repeat split.
  - intros H. destruct sensors as [|s ss]; [contradiction|].
    rewrite sensorObserver_cons. unfold ValueObservers.sensorObserver.
    exact (range_Observe (fun _ => 1) _ (s :: ss) res).
  - intros H. destruct v as [[|n ns] lastScan]; [contradiction|].
    rewrite newLightObserver_cons. unfold ValueObservers.newLightObserver.
    exact (range_Observe (fun _ => 1) _ (n :: ns) res).
  - intros H. destruct lights as [|l ls]; [contradiction|].
    rewrite lightBrightnessObserver_cons.
    unfold ValueObservers.lightBrightnessObserver.
    rewrite range_Observe. cbn [app]. rewrite !map_map.
    repeat split; try (apply map_ext; reflexivity).
    apply Forall_forall. intros o Ho. apply in_map_iff in Ho as (l' & <- & _).
    reflexivity.
Qed.

Lemma value_observers_vs_gauge_observers_witness :
  ValueObservers.sensorObserver sample_sensors []
  = sensorObserver sample_sensors [].
Proof.
  apply (proj1 (proj2 (proj2 (value_observers_vs_gauge_observers
                                sample_lights [group_A]
                                (mkNewLight [] "none") sample_sensors [])))).
  discriminate.
Defined.
